(** * dec_transform: trajectory batching and parallel evaluation

    A shallow embedding of [experiment.py]: the return-to-go computation
    ([discount_cumsum]), the load-time reward transform, the top-percent
    trajectory selection, the batch sampler ([get_batch]) and the lock-step
    evaluation loop ([eval_ep_parallel]).

    Arrays are lists (an array of shape (n, m) is a list of n rows of
    length m).  Python exceptions (IndexError, ValueError, a shape that
    does not broadcast) are the [None] of [option]. *)

From Stdlib Require Import ZArith QArith Lia.
From stdpp Require Import base option list list_monad list_numbers sorting.

Local Open Scope nat_scope.

(** ** Array elements

    The float arrays of the program only ever go through the operations
    below ([of_Z] turns an integer into a float, [trunc] is [int(x)]).  The
    development is parametric in the element type: nothing is assumed about
    rounding.  The few laws kept are the ones the statements need; they
    hold of IEEE doubles without NaN (up to the sign of zero for
    [add_0_r]) and of exact rationals. *)

Class Scalar (R : Type) := {
  zero : R;
  one : R;
  add : R -> R -> R;
  sub : R -> R -> R;
  mul : R -> R -> R;
  div : R -> R -> R;
  of_Z : Z -> R;
  trunc : R -> Z;
  leb : R -> R -> bool;
  mul_1_l : forall x, mul one x = x;
  add_0_r : forall x, add x zero = x;
  of_Z_1 : of_Z 1 = one;
  trunc_of_Z : forall z, (Z.abs z <= 2 ^ 53)%Z -> trunc (of_Z z) = z;
  leb_total : forall x y, leb x y = true \/ leb y x = true;
  leb_trans : forall x y z, leb x y = true -> leb y z = true -> leb x z = true
}.

(** Exact rationals as array elements. *)
#[export, refine] Instance Q_Scalar : Scalar Q := {|
  zero := 0%Q;
  one := 1%Q;
  add := Qplus;
  sub := Qminus;
  mul := Qmult;
  div := Qdiv;
  of_Z := inject_Z;
  trunc := fun q => (Qnum q ÷ Z.pos (Qden q))%Z;
  leb := Qle_bool
|}.
Proof.
  - intros [n d]. unfold Qmult; simpl. by destruct n.
  - intros [n d]. unfold Qplus; simpl.
    by rewrite Z.mul_1_r, Z.add_0_r, Pos.mul_1_r.
  - reflexivity.
  - intros z _. simpl. apply Z.quot_1_r.
  - intros x y. rewrite !Qle_bool_iff.
    destruct (Qlt_le_dec x y) as [Hlt|Hle]; [left; by apply Qlt_le_weak|by right].
  - intros x y z. rewrite !Qle_bool_iff. apply Qle_trans.
Defined.

(** ** Python and NumPy indexing *)

(** [l[i]] for a Python integer [i]: negative indices count from the end,
    anything outside [-len, len) raises IndexError. *)
Definition py_index {A} (l : list A) (i : Z) : option A :=
  if (0 <=? i)%Z then l !! Z.to_nat i
  else if (- Z.of_nat (length l) <=? i)%Z then l !! Z.to_nat (Z.of_nat (length l) + i)
  else None.

(** [l[i] = v] for a Python integer [i]. *)
Definition py_setitem {A} (l : list A) (i : Z) (v : A) : option (list A) :=
  if (0 <=? i)%Z then
    (if decide (Z.to_nat i < length l) then Some (<[Z.to_nat i := v]> l) else None)
  else if (- Z.of_nat (length l) <=? i)%Z
       then Some (<[Z.to_nat (Z.of_nat (length l) + i) := v]> l)
  else None.

(** Where the slice [l[i:]] starts: Python clamps the bound into [0, len]. *)
Definition py_slice_start (n : nat) (i : Z) : nat :=
  if (i <? 0)%Z then Z.to_nat (Z.max (Z.of_nat n + i) 0)
  else Z.to_nat (Z.min i (Z.of_nat n)).

(** Where the slice [l[:i]] stops. *)
Definition py_slice_stop (n : nat) (i : Z) : nat := py_slice_start n i.

(** [l[i:] = vals] on the first axis of a NumPy array: the shapes must agree,
    except that a single row is broadcast over the whole slice. *)
Definition np_set_from {A} (l : list A) (i : Z) (vals : list A) : option (list A) :=
  let s := py_slice_start (length l) i in
  if decide (length vals = length l - s) then Some (take s l ++ vals)
  else match vals with
       | [v] => Some (take s l ++ replicate (length l - s) v)
       | _ => None
       end.

(** [l[:i] = v] for a scalar [v]. *)
Definition np_fill_to {A} (l : list A) (i : Z) (v : A) : list A :=
  let e := py_slice_stop (length l) i in
  replicate e v ++ drop e l.

(** [np.arange(a, b)]. *)
Definition np_arange (a b : Z) : list Z :=
  map (fun k => (a + Z.of_nat k)%Z) (seq 0 (Z.to_nat (b - a))).

(** [arr[idxs]] for an integer index array: one row per index. *)
Definition np_take {A} (arr : list A) (idxs : list Z) : option (list A) :=
  mapM (py_index arr) idxs.

Section Arrays.
Context {R : Type} `{Scalar R}.

(** [x.sum()] of a one-dimensional array, added up from the left. *)
Definition np_sum (x : list R) : R := foldl add zero x.

(** ** Return-to-go: [discount_cumsum]

    [rtg_loop] is the loop [for t in reversed(range(n))]: it runs
    [t = n-1, ..., 0] on the array being filled. *)
Fixpoint rtg_loop (x : list R) (gamma : R) (n : nat) (dc : list R)
  : option (list R) :=
  match n with
  | 0 => Some dc
  | S t =>
      xt ← x !! t;
      nxt ← dc !! (t + 1);
      rtg_loop x gamma t (<[t := add xt (mul gamma nxt)]> dc)
  end.

Definition discount_cumsum (x : list R) (gamma : R) : option (list R) :=
  let dc0 := replicate (length x) zero in
  xl ← py_index x (-1);
  dc1 ← py_setitem dc0 (-1) xl;
  rtg_loop x gamma (Z.to_nat (Z.of_nat (length x) - 1)) dc1.

(** ** The learning-rate schedule: [WarmupLR]

    The optimizer calls the schedule with its iteration counter, a 64-bit
    integer; [(step+1)/warmup_steps] is a true division. *)

Definition wrap64 (z : Z) : Z := ((z + 2 ^ 63) mod 2 ^ 64 - 2 ^ 63)%Z.

(** [tf.minimum(x, y)]. *)
Definition tf_minimum (x y : R) : R := if leb x y then x else y.

Record WarmupLR := {
  target_learning_rate : R;
  warmup_steps : Z
}.

(** [WarmupLR.__call__]. *)
Definition WarmupLR_call (self : WarmupLR) (step : Z) : R :=
  mul (tf_minimum (div (of_Z (wrap64 (step + 1))) (of_Z (warmup_steps self))) one)
      (target_learning_rate self).

(** ** Loading the dataset *)

(** [--mode]: any string is accepted; only ['delayed'] and ['noise'] are
    ever tested for, every other value behaves as ['normal']. *)
Inductive Mode := normal | delayed | noise.

(** One trajectory record of the pickled dataset: a dict whose keys
    ['terminals'], ['dones'] and ['rtg'] may be absent. *)
Record Path := {
  observations : list (list R);
  actions : list (list R);
  rewards : list R;
  terminals : option (list bool);
  dones : option (list bool);
  rtg : option (list R)
}.

(** [mode == 'delayed']: [rewards[-1] = rewards.sum(); rewards[:-1] = 0.] *)
Definition delayed_rewards (r : list R) : option (list R) :=
  r1 ← py_setitem r (-1) (np_sum r);
  Some (np_fill_to r1 (-1) zero).

(** The body of [for path in trajectories] as far as it changes [path]. *)
Definition load_path (mode : Mode) (p : Path) : option Path :=
  r ← (match mode with
       | delayed => delayed_rewards (rewards p)
       | _ => Some (rewards p)
       end);
  let d := match terminals p with Some t => Some t | None => dones p end in
  g ← discount_cumsum r one;
  Some {| observations := observations p; actions := actions p;
          rewards := r; terminals := terminals p; dones := d;
          rtg := Some g |}.

Definition load_trajectories (mode : Mode) (raw : list Path) : option (list Path) :=
  mapM (load_path mode) raw.

Definition traj_lens_of (trajectories : list Path) : list nat :=
  map (fun p => length (observations p)) trajectories.

Definition traj_total_return_of (trajectories : list Path) : list R :=
  map (fun p => np_sum (rewards p)) trajectories.

(** ** Selecting the top trajectories *)

(** [np.argsort]: the indices in ascending order of their keys.  Equal keys
    are kept in index order here; NumPy's default sort does not promise an
    order among them, and nothing below depends on it. *)
Fixpoint insert_by (p : nat * R) (l : list (nat * R)) : list (nat * R) :=
  match l with
  | [] => [p]
  | q :: l' => if leb (snd p) (snd q) then p :: q :: l' else q :: insert_by p l'
  end.

Definition sort_by (l : list (nat * R)) : list (nat * R) :=
  foldr insert_by [] l.

(** The order [sort_by] sorts by. *)
Definition key_le (p q : nat * R) : Prop := leb (snd p) (snd q) = true.

Definition np_argsort (keys : list R) : list nat :=
  map fst (sort_by (imap (fun i k => (i, k)) keys)).

(** [max(int(pct_traj*num_timesteps), 1)]. *)
Definition timestep_budget (pct_traj : R) (num_timesteps : nat) : Z :=
  Z.max (trunc (mul pct_traj (of_Z (Z.of_nat num_timesteps)))) 1.

(** [sum(traj_lens[sel])]: the timesteps a list of trajectory indices covers. *)
Definition selected_timesteps (traj_lens sel : list nat) : nat :=
  sum_list_with (fun i => default 0 (traj_lens !! i)) sel.

(** The [while ind >= 0 and timesteps + traj_lens[...] <= num_timesteps]
    loop; [k] is [ind + 1]. *)
Fixpoint select_loop (traj_lens sorted : list nat) (num_timesteps : Z)
    (k : nat) (timesteps : Z) (num_trajectories : nat) : option (Z * nat) :=
  match k with
  | 0 => Some (timesteps, num_trajectories)
  | S ind =>
      i ← sorted !! ind;
      len ← traj_lens !! i;
      if (timesteps + Z.of_nat len <=? num_timesteps)%Z
      then select_loop traj_lens sorted num_timesteps ind
             (timesteps + Z.of_nat len)%Z (num_trajectories + 1)
      else Some (timesteps, num_trajectories)
  end.

(** Lines 123-133: returns the clipped [sorted_return_inds] together with
    the timesteps it covers. *)
Definition select_trajectories (pct_traj : R) (trajectories : list Path)
  : option (list nat * Z) :=
  let traj_lens := traj_lens_of trajectories in
  let traj_total_return := traj_total_return_of trajectories in
  let num_timesteps := timestep_budget pct_traj (sum_list traj_lens) in
  let sorted_return_inds := np_argsort traj_total_return in
  best ← py_index sorted_return_inds (-1);
  timesteps ← traj_lens !! best;
  let ind := (Z.of_nat (length trajectories) - 2)%Z in
  '(timesteps, num_trajectories) ←
     select_loop traj_lens sorted_return_inds num_timesteps
       (Z.to_nat (ind + 1)) (Z.of_nat timesteps) 1;
  Some (drop (py_slice_start (length sorted_return_inds)
                (- Z.of_nat num_trajectories)) sorted_return_inds,
        timesteps).

(** [p_sample = traj_lens[sorted_return_inds] / sum(traj_lens[sorted_return_inds])]:
    the weight of every selected trajectory. *)
Definition p_sample_of (traj_lens sorted_return_inds : list nat) : option (list R) :=
  lens ← mapM (fun i => traj_lens !! i) sorted_return_inds;
  Some (map (fun l => div (of_Z (Z.of_nat l)) (of_Z (Z.of_nat (sum_list lens)))) lens).

(** ** The batch sampler: [get_batch]

    [get_batch] is a closure of [experiment]: the variables it captures are
    the variables of this section.  The two random generators are entropy
    streams: the [k]-th call of a generator consumes its [k]-th number. *)

(** 32-bit two's complement, the [dtype] of the array [pad_sequences] returns. *)
Definition wrap32 (z : Z) : Z := ((z + 2 ^ 31) mod 2 ^ 32 - 2 ^ 31)%Z.

(** [random.randint(a, b)] on entropy [u]: a number of [a..b], ValueError
    when the range is empty. *)
Definition randint (u : nat) (a b : Z) : option Z :=
  if (b <? a)%Z then None else Some (a + Z.of_nat u mod (b - a + 1))%Z.

(** [np.random.choice(np.arange(n), size=size, replace=True, p=...)] on an
    entropy stream: [size] numbers below [n]; ValueError when there is
    nothing to choose from.  The weights only shape the distribution. *)
Definition np_random_choice (rng : nat -> nat) (n size : nat) : option (list nat) :=
  if decide (n = 0 /\ size <> 0) then None
  else Some (map (fun k => rng k mod n) (seq 0 size)).

(** A row of the dataset written into a slot of width [dim]: same width,
    or a single value broadcast. *)
Definition np_bcast_row (dim : nat) (v : list R) : option (list R) :=
  if decide (length v = dim) then Some v
  else match v with
       | [c] => Some (replicate dim c)
       | _ => None
       end.

(** [arr -= m] and [arr /= m] on an array of shape (b, l, dim) and a vector
    [m]: [m] has [dim] entries, or one that is broadcast. *)
Definition np_inplace (op : R -> R -> R) (dim : nat)
    (arr : list (list (list R))) (m : list R) : option (list (list (list R))) :=
  if decide (length m = dim) then
    Some (map (map (fun v => zip_with op v m)) arr)
  else match m with
       | [c] => Some (map (map (map (fun x => op x c))) arr)
       | _ => None
       end.

(** [np.ones((n,), dtype=np.bool_)]. *)
Definition np_ones_bool (n : Z) : option (list bool) :=
  if (n <? 0)%Z then None else Some (replicate (Z.to_nat n) true).

(** A boolean stored into a float array. *)
Definition of_bool (b : bool) : R := if b then one else zero.

(** [tf.keras.utils.pad_sequences(seqs, maxlen, value=value, padding='pre')]
    (truncating='pre', dtype int32), row by row. *)
Definition pad_sequences_row (maxlen : nat) (value : Z) (s : list Z)
  : option (list Z) :=
  let x := replicate maxlen (wrap32 value) in
  match s with
  | [] => Some x
  | _ =>
      let trunc := drop (py_slice_start (length s) (- Z.of_nat maxlen)) s in
      np_set_from x (- Z.of_nat (length trunc)) (map wrap32 trunc)
  end.

Definition pad_sequences (seqs : list (list Z)) (maxlen : nat) (value : Z)
  : option (list (list Z)) :=
  mapM (pad_sequences_row maxlen value) seqs.

(** The seven arrays [get_batch] returns. *)
Record Batch := {
  b_s : list (list (list R));
  b_a : list (list (list R));
  b_r : list (list (list R));
  b_d : list (list (list R));
  b_rtg : list (list (list R));
  b_timesteps : list (list Z);
  b_mask : list (list bool)
}.

(** The rows [i] of the six pre-allocated arrays after iteration [i] of
    [for i, params in enumerate(zip(batch_sources, timesteps, seq_lens))]. *)
Record BatchRow := {
  row_s : list (list R);
  row_a : list (list R);
  row_r : list R;
  row_d : list R;
  row_rtg : list R;
  row_mask : list bool
}.

Section GetBatch.
Variable trajectories : list Path.
Variable sorted_return_inds : list nat.
Variable num_trajectories : nat.
Variables state_mean state_std : list R.
Variable scale : R.
Variables state_dim act_dim : nat.
Variable np_rng : nat -> nat.
Variable py_rng : nat -> nat.

(** The padding the arrays are allocated with. *)
Definition s_pad : list R := replicate state_dim zero.
Definition a_pad : list R := replicate act_dim (mul one (of_Z (-10))).
Definition d_pad : R := mul one (of_Z 2).

(** The body of the loop over the rows: iteration [i] writes the window of
    its trajectory into the last [seq_len] slots of row [i] of each of the
    six arrays and touches no other row, so the rows are built one by one. *)
Definition fill_row (max_len : nat) (traj : Path) (t_steps : list Z)
    (seq_len : Z) : option BatchRow :=
  obs ← np_take (observations traj) t_steps;
  obs ← mapM (np_bcast_row state_dim) obs;
  s ← np_set_from (replicate max_len s_pad) (- seq_len) obs;
  act ← np_take (actions traj) t_steps;
  act ← mapM (np_bcast_row act_dim) act;
  a ← np_set_from (replicate max_len a_pad) (- seq_len) act;
  rew ← np_take (rewards traj) t_steps;
  r ← np_set_from (replicate max_len zero) (- seq_len) rew;
  dn ← dones traj;
  dn ← np_take dn t_steps;
  d ← np_set_from (replicate max_len d_pad) (- seq_len) (map of_bool dn);
  g ← rtg traj;
  g ← np_take g t_steps;
  g ← np_set_from (replicate max_len zero) (- seq_len)
        (map (fun v => div v scale) g);
  ones ← np_ones_bool seq_len;
  mask ← np_set_from (replicate max_len false) (- seq_len) ones;
  Some {| row_s := s; row_a := a; row_r := r; row_d := d; row_rtg := g;
          row_mask := mask |}.

(** What the sampler draws and derives before it fills the arrays. *)
Definition batch_sources_of (batch_source_indices : list nat) : option (list Path) :=
  mapM (fun idx => i ← sorted_return_inds !! idx; trajectories !! i)
       batch_source_indices.

Definition start_indices_of (batch_lens : list nat) : option (list Z) :=
  mapM (fun '(k, batch_len) => randint (py_rng k) 0 (Z.of_nat batch_len - 1))
       (imap (fun k batch_len => (k, batch_len)) batch_lens).

Definition end_indices_of (max_len : nat) (start_indices : list Z)
    (batch_lens : list nat) : list Z :=
  zip_with (fun x y => Z.min (x + Z.of_nat max_len) (Z.of_nat y))
           start_indices batch_lens.

(** [get_batch(batch_size, max_len)]: the draws, the rows, the in-place
    normalisation of the states, the trailing axis of [r], [d] and [rtg],
    and the padded, 1-indexed timesteps. *)
Definition get_batch (batch_size max_len : nat) : option Batch :=
  batch_source_indices ← np_random_choice np_rng num_trajectories batch_size;
  batch_sources ← batch_sources_of batch_source_indices;
  let batch_lens := map (fun traj => length (rewards traj)) batch_sources in
  start_indices ← start_indices_of batch_lens;
  let end_indices := end_indices_of max_len start_indices batch_lens in
  let seq_lens := zip_with (fun start_idx end_idx => (end_idx - start_idx)%Z)
                    start_indices end_indices in
  let timesteps := zip_with np_arange start_indices end_indices in
  rows ← mapM (fun '(traj, t_steps, seq_len) => fill_row max_len traj t_steps seq_len)
            (zip (zip batch_sources timesteps) seq_lens);
  s ← np_inplace sub state_dim (map row_s rows) state_mean;
  s ← np_inplace div state_dim s state_std;
  timesteps ← pad_sequences timesteps max_len (-1);
  Some {| b_s := s;
          b_a := map row_a rows;
          b_r := map (map (fun x => [x])) (map row_r rows);
          b_d := map (map (fun x => [x])) (map row_d rows);
          b_rtg := map (map (fun x => [x])) (map row_rtg rows);
          b_timesteps := map (map (fun z => wrap32 (z + 1))) timesteps;
          b_mask := map row_mask rows |}.

End GetBatch.

(** *** What [get_batch] expects of what it captures *)

(** A loaded trajectory: the five arrays have one row per step, at least
    one step and fewer than 2^31, observations and actions of the widths
    of the environment's spaces. *)
Definition wf_path (state_dim act_dim : nat) (p : Path) : Prop :=
  let L := length (rewards p) in
  1 <= L /\ (Z.of_nat L < 2 ^ 31)%Z /\
  length (observations p) = L /\
  length (actions p) = L /\
  (exists d, dones p = Some d /\ length d = L) /\
  (exists g, rtg p = Some g /\ length g = L) /\
  Forall (fun o => length o = state_dim) (observations p) /\
  Forall (fun a => length a = act_dim) (actions p).

(** The clipped index list: [num_trajectories] indices into [trajectories]. *)
Definition wf_selection (trajectories : list Path) (sorted_return_inds : list nat)
    (num_trajectories : nat) : Prop :=
  0 < num_trajectories /\
  length sorted_return_inds = num_trajectories /\
  Forall (fun i => i < length trajectories) sorted_return_inds.

(** Row [i] of a batch: the trajectory and the start offset drawn for it. *)
Definition drawn_traj (trajectories : list Path) (sorted_return_inds : list nat)
    (num_trajectories : nat) (np_rng : nat -> nat) (i : nat) : option Path :=
  j ← sorted_return_inds !! (np_rng i mod num_trajectories);
  trajectories !! j.

Definition drawn_start (py_rng : nat -> nat) (i : nat) (traj : Path) : nat :=
  py_rng i mod length (rewards traj).

(** The length of the window that starts at [start] in a trajectory of
    [L] steps: [min(start + max_len, L) - start]. *)
Definition window_len (max_len L start : nat) : nat :=
  Nat.min (start + max_len) L - start.

(** The steps [start, start + w) of an array of per-step rows. *)
Definition window {A} (arr : list A) (start w : nat) : list A :=
  take w (drop start arr).

(** A row of [max_len] slots: padding, then the [w] slots of a window. *)
Definition left_pad {A} (max_len w : nat) (pad : A) (win : list A) : list A :=
  replicate (max_len - w) pad ++ win.

(** [(v - state_mean) / state_std] on one observation slot. *)
Definition normalize_obs (state_mean state_std v : list R) : list R :=
  zip_with div (zip_with sub v state_mean) state_std.

(** [arr[i, j]] of a two-dimensional array. *)
Definition cell {A} (arr : list (list A)) (i j : nat) : option A :=
  row ← arr !! i; row !! j.

(** The first two dimensions of an array are [(n, m)]. *)
Definition shape2 {A} (arr : list (list A)) (n m : nat) : Prop :=
  length arr = n /\ Forall (fun row => length row = m) arr.

(** A record of the dataset file as the loader expects it: one row per
    step in each array, the terminal flags under ['terminals'] or under
    ['dones'], one per step, observation rows of [state_dim] entries,
    action rows of [act_dim] entries, fewer than 2^31 steps. *)
Definition rectangular (state_dim act_dim : nat) (p : Path) : Prop :=
  length (observations p) = length (rewards p) /\
  length (actions p) = length (rewards p) /\
  (exists d, match terminals p with Some t => Some t | None => dones p end = Some d /\
             length d = length (rewards p)) /\
  Forall (fun o => length o = state_dim) (observations p) /\
  Forall (fun a => length a = act_dim) (actions p) /\
  (Z.of_nat (length (rewards p)) < 2 ^ 31)%Z.

(** ** The parallel evaluator: [eval_ep_parallel]

    The environments and the model are the program's collaborators: a
    wrapped environment is a state of an arbitrary type [Env] that [reset]
    and [step] thread along, the model is an arbitrary function of the five
    histories.  Only the first axis (one row per episode) of the tensors
    the model and the environments hand back is tracked; the widths of
    observation and action vectors are left to the collaborators. *)

Inductive StepType := FIRST | MID | LAST.

#[export] Instance StepType_eq_dec : EqDecision StepType.
Proof. solve_decision. Defined.

Record TimeStep := {
  step_type : StepType;
  reward : R;
  observation : list R
}.

(** 32-bit addition of [episode_length]. *)
Definition int32_add (a b : Z) : Z := wrap32 (a + b).

(** [t[:, :-1]]: every row without its last entry. *)
Definition drop_last_col {A} (t : list (list A)) : list (list A) :=
  map (fun row => take (py_slice_stop (length row) (-1)) row) t.

(** [t[:, -1]]: the last entry of every row. *)
Definition last_col {A} (t : list (list A)) : option (list A) :=
  mapM (fun row => py_index row (-1)) t.

(** [tf.concat([t, tf.expand_dims(col, axis=1)], axis=1)]: one more entry
    on every row; the first axes must agree. *)
Definition append_col {A} (t : list (list A)) (col : list A)
  : option (list (list A)) :=
  if decide (length t = length col)
  then Some (zip_with (fun row x => row ++ [x]) t col)
  else None.

(** [tf.reduce_any(tf.stack([a, b], axis=1), axis=1)]. *)
Definition tf_any2 (a b : list bool) : option (list bool) :=
  if decide (length a = length b) then Some (zip_with orb a b) else None.

(** [tf.reduce_all(tf.reduce_any(dones, axis=-1))]. *)
Definition tf_all_any (dones : list (list bool)) : bool :=
  forallb (fun row => existsb id row) dones.

(** [x + tf.where(cond, c, y)] on vectors of one shape. *)
Definition tf_add_where {A} (plus : A -> A -> A) (c : A)
    (x : list A) (cond : list bool) (y : list A) : option (list A) :=
  if decide (length cond = length y /\ length x = length y)
  then Some (zip_with plus x (zip_with (fun (b : bool) v => if b then c else v) cond y))
  else None.

(** The variables of the loop of [fn]. *)
Record EvalState {Env : Type} := {
  wrapped_envs : list Env;
  ev_dones : list (list bool);
  ev_states : list (list (list R));
  ev_actions : list (list (list R));
  ev_rewards : list (list R);
  target_returns : list (list R);
  ev_timesteps : list R;
  episode_return : list R;
  episode_length : list Z
}.
Arguments EvalState : clear implicits.

Section EvalEpParallel.
Variable Env : Type.
Variable make_env : nat -> Env.
Variable env_reset : Env -> Env * TimeStep.
Variable env_step : Env -> list R -> Env * TimeStep.
Variable get_batch_action :
  list (list (list R)) -> list (list (list R)) -> list (list R) ->
  list (list R) -> list R -> list (list R).
Variable mode : Mode.
Variables state_mean state_std : list R.
Variable scale : R.
Variables state_dim act_dim : nat.
Variable num_eval_episodes : nat.
Variable max_ep_len : nat.
Variable target_rew : R.

(** [(states - state_mean) / state_std]. *)
Definition normalized (states : list (list (list R))) : list (list (list R)) :=
  map (map (fun v => zip_with div (zip_with sub v state_mean) state_std)) states.

(** Everything before the loop. *)
Definition eval_init : option (EvalState Env) :=
  let dones := replicate num_eval_episodes [false] in
  let envs := map make_env (seq 0 num_eval_episodes) in
  let states := replicate num_eval_episodes [] in
  let actions := replicate num_eval_episodes [] in
  let rewards := replicate num_eval_episodes [] in
  let target_returns :=
    replicate num_eval_episodes [div (mul one target_rew) scale] in
  let timesteps := [one] in
  let ts_s := map env_reset envs in
  let new_states := map (fun ts => observation (snd ts)) ts_s in
  (* tf.random.normal takes no [size] argument: TypeError *)
  new_states ← (match mode with noise => None | _ => Some new_states end);
  (* with no episode [tf.convert_to_tensor([])] has rank 1, its
     [expand_dims] rank 2, and [tf.concat] with the rank-3 [states] raises *)
  new_states ← (match new_states with [] => None | _ :: _ => Some new_states end);
  states ← append_col states new_states;
  Some {| wrapped_envs := map fst ts_s;
          ev_dones := dones;
          ev_states := states;
          ev_actions := actions;
          ev_rewards := rewards;
          target_returns := target_returns;
          ev_timesteps := timesteps;
          episode_return := replicate num_eval_episodes zero;
          episode_length := replicate num_eval_episodes 0%Z |}.

(** One iteration of [for t in range(max_ep_len)]; the boolean is [done]. *)
Definition loop_body (t : Z) (st : EvalState Env) : option (EvalState Env * bool) :=
  let actions := map (fun row => row ++ [replicate act_dim zero]) (ev_actions st) in
  let rewards := map (fun row => row ++ [zero]) (ev_rewards st) in
  let new_actions :=
    get_batch_action (normalized (ev_states st)) actions rewards
      (target_returns st) (ev_timesteps st) in
  actions ← append_col (drop_last_col actions) new_actions;
  let ts_s := zip_with env_step (wrapped_envs st) new_actions in
  let new_states := map (fun ts => observation (snd ts)) ts_s in
  let new_rewards := map (fun ts => reward (snd ts)) ts_s in
  let new_dones := map (fun ts => bool_decide (step_type (snd ts) = LAST)) ts_s in
  prev ← last_col (ev_dones st);
  new_dones ← tf_any2 prev new_dones;
  dones ← append_col (drop_last_col (ev_dones st)) new_dones;
  let done := tf_all_any dones in
  states ← append_col (ev_states st) new_states;
  rewards ← append_col (drop_last_col rewards) new_rewards;
  last_target ← last_col (target_returns st);
  pred_return ←
    (match mode with
     | delayed => Some last_target
     | _ => if decide (length last_target = length new_rewards)
            then Some (zip_with (fun g r => sub g (div r scale)) last_target new_rewards)
            else None
     end);
  target_returns ← append_col (target_returns st) pred_return;
  let timesteps := ev_timesteps st ++ [of_Z (t + 2)] in
  episode_return ← tf_add_where add zero (episode_return st) new_dones new_rewards;
  episode_length ←
    tf_add_where int32_add 0%Z (episode_length st) new_dones
      (replicate (length new_dones) 1%Z);
  Some ({| wrapped_envs := map fst ts_s ++ drop (length ts_s) (wrapped_envs st);
           ev_dones := dones;
           ev_states := states;
           ev_actions := actions;
           ev_rewards := rewards;
           target_returns := target_returns;
           ev_timesteps := timesteps;
           episode_return := episode_return;
           episode_length := episode_length |}, done).

(** The actions the model returns and the time steps the environments
    answer with in the iteration that starts in [st]. *)
Definition model_actions (st : EvalState Env) : list (list R) :=
  get_batch_action (normalized (ev_states st))
    (map (fun row => row ++ [replicate act_dim zero]) (ev_actions st))
    (map (fun row => row ++ [zero]) (ev_rewards st))
    (target_returns st) (ev_timesteps st).

Definition env_steps (st : EvalState Env) : list (Env * TimeStep) :=
  zip_with env_step (wrapped_envs st) (model_actions st).

(** The loop, from iteration [t] with [n] iterations left; the result is
    the list of the states at the end of each iteration that ran. *)
Fixpoint eval_loop (n : nat) (t : Z) (st : EvalState Env)
  : option (list (EvalState Env)) :=
  match n with
  | 0 => Some []
  | S n' =>
      '(st', done) ← loop_body t st;
      if done : bool then Some [st']
      else rest ← eval_loop n' (t + 1) st'; Some (st' :: rest)
  end.

(** The run: the initial state and the states after each iteration. *)
Definition eval_run : option (EvalState Env * list (EvalState Env)) :=
  st0 ← eval_init;
  trace ← eval_loop max_ep_len 0 st0;
  Some (st0, trace).

(** What [fn] reports: the per-episode returns and lengths its four
    statistics are the mean and deviation of. *)
Definition fn : option (list R * list Z) :=
  '(st0, trace) ← eval_run;
  let final := List.last trace st0 in
  Some (episode_return final, episode_length final).

End EvalEpParallel.

(** [tf.reduce_any(dones, axis=-1)]: the done flag of every episode. *)
Definition done_flags {Env} (st : EvalState Env) : list bool :=
  map (existsb id) (ev_dones st).

(** The terminal signal of a time step. *)
Definition is_last (ts : TimeStep) : bool := bool_decide (step_type ts = LAST).

(** The shapes the loop keeps: one row per episode everywhere, one done
    flag per row, a return target on every row. *)
Definition wf_eval {Env} (n : nat) (st : EvalState Env) : Prop :=
  length (wrapped_envs st) = n /\
  length (ev_dones st) = n /\ Forall (fun row => length row = 1) (ev_dones st) /\
  length (ev_states st) = n /\ length (ev_actions st) = n /\
  length (ev_rewards st) = n /\
  length (target_returns st) = n /\ Forall (fun row => row <> []) (target_returns st) /\
  length (episode_return st) = n /\ length (episode_length st) = n.

(** The model answers with one action per episode. *)
Definition model_arity
    (get_batch_action :
       list (list (list R)) -> list (list (list R)) -> list (list R) ->
       list (list R) -> list R -> list (list R)) : Prop :=
  forall states actions rewards target_returns timesteps,
    length (get_batch_action states actions rewards target_returns timesteps)
    = length states.

End Arrays.

(** ** A small dataset over the rationals

    Two trajectories of five steps: [A] with return 10, [B] with return 5. *)

Definition raw_A : @Path Q := {|
  observations := [[0]; [1]; [2]; [3]; [4]]%Q;
  actions := [[1]; [1]; [1]; [1]; [1]]%Q;
  rewards := [2; 2; 2; 2; 2]%Q;
  terminals := Some [false; false; false; false; true];
  dones := None;
  rtg := None
|}.

Definition raw_B : @Path Q := {|
  observations := [[5]; [6]; [7]; [8]; [9]]%Q;
  actions := [[0]; [0]; [0]; [0]; [0]]%Q;
  rewards := [1; 1; 1; 1; 1]%Q;
  terminals := Some [false; false; false; false; true];
  dones := None;
  rtg := None
|}.

Definition demo_trajectories : list (@Path Q) :=
  default [] (load_trajectories normal [raw_A; raw_B]).

(** All of it selected: [B] (index 1) before [A] (index 0). *)
Definition demo_sorted_return_inds : list nat :=
  default [] (fst <$> select_trajectories 1%Q demo_trajectories).

Definition demo_state_mean : list Q := [2%Q].
Definition demo_state_std : list Q := [3%Q].

(** Row [i] draws the [i]-th selected trajectory; the window of row 0
    starts on the last step, the window of row 1 on the first. *)
Definition demo_np_rng (k : nat) : nat := k.
Definition demo_py_rng (k : nat) : nat := 4 + k.

Definition demo_get_batch (batch_size max_len : nat) : option (@Batch Q) :=
  get_batch demo_trajectories demo_sorted_return_inds 2
    demo_state_mean demo_state_std 1000%Q 1 1 demo_np_rng demo_py_rng
    batch_size max_len.

(** ** Counting environments

    An environment that pays 1 per step and, when [ends_at] is set, ends
    its episode on that step; as the wrapper does, a step taken after the
    end starts the next episode. *)

Record CounterEnv := { ends_at : option nat; steps : nat }.

Definition counter_reset (e : CounterEnv) : CounterEnv * @TimeStep Q :=
  ({| ends_at := ends_at e; steps := 0 |},
   {| step_type := FIRST; reward := 0%Q; observation := [0%Q] |}).

Definition counter_step (e : CounterEnv) (a : list Q) : CounterEnv * @TimeStep Q :=
  if decide (ends_at e = Some (steps e)) then counter_reset e
  else
    ({| ends_at := ends_at e; steps := steps e + 1 |},
     {| step_type := if decide (ends_at e = Some (steps e + 1)) then LAST else MID;
        reward := 1%Q;
        observation := [inject_Z (Z.of_nat (steps e + 1))] |}).

(** A model that always answers with the zero action. *)
Definition zero_model (states actions : list (list (list Q)))
    (rewards target_returns : list (list Q)) (timesteps : list Q) : list (list Q) :=
  map (fun _ => [0%Q]) states.

(** One episode that ends on its third step, [max_ep_len = 5]. *)
Definition demo_eval_one :=
  eval_run CounterEnv (fun _ => {| ends_at := Some 3; steps := 0 |})
    counter_reset counter_step zero_model normal [0%Q] [1%Q] 1%Q 1 1 5 3%Q.

Definition demo_fn_one :=
  fn CounterEnv (fun _ => {| ends_at := Some 3; steps := 0 |})
    counter_reset counter_step zero_model normal [0%Q] [1%Q] 1%Q 1 1 5 3%Q.

(** Two episodes: the first ends on its third step, the second never. *)
Definition demo_envs_two (k : nat) : CounterEnv :=
  {| ends_at := if decide (k = 0) then Some 3 else None; steps := 0 |}.

Definition demo_eval_two :=
  eval_run CounterEnv demo_envs_two
    counter_reset counter_step zero_model normal [0%Q] [1%Q] 1%Q 1 2 5 3%Q.

Definition demo_fn_two :=
  fn CounterEnv demo_envs_two
    counter_reset counter_step zero_model normal [0%Q] [1%Q] 1%Q 1 2 5 3%Q.

(** * Properties *)

Lemma bind_Some_l {A B} (x : A) (f : A -> option B) : (Some x ≫= f) = f x.
Proof. reflexivity. Qed.

(** ** Return-to-go *)

Section ReturnToGo.
Context {R : Type} `{Scalar R}.

Lemma py_index_last {A} (l : list A) :
  l <> [] -> py_index l (-1) = l !! (length l - 1).
Proof.
  intros Hl. unfold py_index. destruct l as [|a l]; [done|].
  simpl length.
  destruct (0 <=? -1)%Z eqn:E1; [done|].
  destruct (- Z.of_nat (S (length l)) <=? -1)%Z eqn:E2.
  - f_equal. lia.
  - apply Z.leb_gt in E2. lia.
Qed.

Lemma py_setitem_last {A} (l : list A) v :
  l <> [] -> py_setitem l (-1) v = Some (<[length l - 1 := v]> l).
Proof.
  intros Hl. unfold py_setitem. destruct l as [|a l]; [done|].
  simpl length.
  destruct (0 <=? -1)%Z eqn:E1; [done|].
  destruct (- Z.of_nat (S (length l)) <=? -1)%Z eqn:E2.
  - do 2 f_equal. lia.
  - apply Z.leb_gt in E2. lia.
Qed.

(** The loop fills the cells below [n] by the recurrence and leaves the
    others as they are. *)
Lemma rtg_loop_spec (x : list R) gamma n : forall dc,
  length dc = length x -> n < length x ->
  exists dc', rtg_loop x gamma n dc = Some dc' /\
    length dc' = length x /\
    (forall j, n <= j -> dc' !! j = dc !! j) /\
    (forall t, t < n -> exists xt nxt,
        x !! t = Some xt /\ dc' !! (t + 1) = Some nxt /\
        dc' !! t = Some (add xt (mul gamma nxt))).
Proof.
  induction n as [|t IH]; intros dc Hlen Hn.
  - exists dc. simpl. repeat split; auto. intros t Ht; lia.
  - destruct (lookup_lt_is_Some_2 x t) as [xt Hxt]; [lia|].
    destruct (lookup_lt_is_Some_2 dc (t + 1)) as [nxt Hnxt]; [lia|].
    simpl. rewrite Hxt, Hnxt. simpl.
    destruct (IH (<[t := add xt (mul gamma nxt)]> dc)) as (dc' & Hrun & Hl & Hkeep & Hrec).
    { by rewrite length_insert. }
    { lia. }
    exists dc'. split; [done|]. split; [done|]. split.
    + intros j Hj. rewrite Hkeep by lia. apply list_lookup_insert_ne. lia.
    + intros t' Ht'. destruct (decide (t' = t)) as [->|Hne].
      * exists xt, nxt. split; [done|]. split.
        -- rewrite Hkeep by lia. rewrite list_lookup_insert_ne by lia. done.
        -- rewrite Hkeep by lia. apply list_lookup_insert_eq. lia.
      * apply Hrec. lia.
Qed.

Lemma discount_cumsum_spec (x : list R) gamma :
  x <> [] ->
  exists dc, discount_cumsum x gamma = Some dc /\
    length dc = length x /\
    dc !! (length x - 1) = x !! (length x - 1) /\
    (forall t, t + 1 < length x -> exists xt nxt,
        x !! t = Some xt /\ dc !! (t + 1) = Some nxt /\
        dc !! t = Some (add xt (mul gamma nxt))).
Proof.
  intros Hx. unfold discount_cumsum.
  assert (0 < length x) as Hpos by (destruct x; [done|simpl; lia]).
  rewrite py_index_last by done.
  destruct (lookup_lt_is_Some_2 x (length x - 1)) as [xl Hxl]; [lia|].
  rewrite Hxl. simpl.
  rewrite py_setitem_last.
  2:{ destruct x; [done|]. done. }
  simpl. rewrite length_replicate.
  replace (Z.to_nat (Z.of_nat (length x) - 1)) with (length x - 1) by lia.
  destruct (rtg_loop_spec x gamma (length x - 1)
              (<[length x - 1 := xl]> (replicate (length x) zero)))
    as (dc & Hrun & Hl & Hkeep & Hrec).
  { by rewrite length_insert, length_replicate. }
  { lia. }
  exists dc. split; [done|]. split; [done|]. split.
  - rewrite Hkeep by lia. rewrite list_lookup_insert_eq; [done|].
    rewrite length_replicate. lia.
  - intros t Ht. apply Hrec. lia.
Qed.

End ReturnToGo.

(** C4. For every non-empty reward sequence [x] of length L,
    [discount_cumsum x gamma] returns a series of length L whose last entry
    is [x[L-1]] and whose entry [t < L-1] is [x[t] + gamma * rtg[t+1]]; for
    gamma = 1 and rewards [1,2,3] the series is [6,5,3]. *)
Theorem discount_cumsum_recurrence :
  (forall (R : Type) (HR : Scalar R) (x : list R) (gamma : R),
     x <> [] ->
     exists dc, discount_cumsum x gamma = Some dc /\
       length dc = length x /\
       dc !! (length x - 1) = x !! (length x - 1) /\
       (forall t, t + 1 < length x -> exists xt nxt,
           x !! t = Some xt /\ dc !! (t + 1) = Some nxt /\
           dc !! t = Some (add xt (mul gamma nxt)))) /\
  discount_cumsum [1; 2; 3]%Q 1%Q = Some [6; 5; 3]%Q.
Proof.
  split; [|reflexivity].
  intros R HR x gamma Hx. by apply discount_cumsum_spec.
Qed.

Lemma discount_cumsum_recurrence_witness :
  [1; 2; 3]%Q <> [] /\
  exists dc, discount_cumsum [1; 2; 3]%Q 1%Q = Some dc /\
    length dc = 3 /\
    dc !! 2 = Some 3%Q /\
    (forall t, t + 1 < 3 -> exists xt nxt,
        [1; 2; 3]%Q !! t = Some xt /\ dc !! (t + 1) = Some nxt /\
        dc !! t = Some (add xt (mul 1%Q nxt))).
Proof.
  split; [discriminate|].
  apply (proj1 discount_cumsum_recurrence Q Q_Scalar [1; 2; 3]%Q 1%Q).
  discriminate.
Defined.

(** ** The delayed-reward transform *)

Section Delayed.
Context {R : Type} `{Scalar R}.

Lemma delayed_rewards_spec (xs : list R) (xl : R) :
  delayed_rewards (xs ++ [xl])
  = Some (replicate (length xs) zero ++ [np_sum (xs ++ [xl])]).
Proof.
  unfold delayed_rewards.
  rewrite py_setitem_last by (by destruct xs).
  simpl. f_equal. unfold np_fill_to, py_slice_stop, py_slice_start.
  rewrite length_insert, length_app. simpl length.
  replace (Z.to_nat (Z.max (Z.of_nat (length xs + 1) + -1) 0)) with (length xs) by lia.
  simpl. f_equal.
  replace (length xs + 1 - 1) with (length xs + 0) by lia.
  rewrite insert_app_r. simpl. by rewrite drop_app_length.
Qed.

(** In delayed mode the return-to-go stored by the loader is the one of the
    transformed rewards. *)
Lemma load_path_delayed (p : Path) (xs : list R) (xl : R) :
  rewards p = xs ++ [xl] ->
  exists p', load_path delayed p = Some p' /\
    rewards p' = replicate (length xs) zero ++ [np_sum (rewards p)] /\
    is_Some (rtg p') /\
    rtg p' = discount_cumsum (rewards p') one.
Proof.
  intros Hr. unfold load_path. rewrite Hr, delayed_rewards_spec. simpl.
  destruct (discount_cumsum_spec
              (replicate (length xs) zero ++ [np_sum (xs ++ [xl])]) one)
    as (dc & Hdc & _).
  { by destruct (replicate (length xs) zero). }
  rewrite Hdc. simpl. eexists. split; [done|]. simpl. split; [done|]. split; [by eexists|done].
Qed.

Lemma discount_cumsum_length (x : list R) gamma dc :
  discount_cumsum x gamma = Some dc -> x <> [] /\ length dc = length x.
Proof.
  intros Hdc. destruct x as [|a x]; [done|]. split; [done|].
  destruct (discount_cumsum_spec (a :: x) gamma) as (dc' & Hdc' & Hl & _); [done|].
  congruence.
Qed.

Lemma delayed_rewards_length (r r' : list R) :
  delayed_rewards r = Some r' -> length r' = length r.
Proof.
  destruct r as [|xl xs _] using rev_ind; [done|].
  rewrite delayed_rewards_spec. intros [= <-].
  by rewrite !length_app, length_replicate.
Qed.

(** What the loader hands to the sampler: a dataset whose arrays have one
    row per step is loaded into well-formed trajectories. *)
Lemma load_path_wf mode state_dim act_dim (p p' : Path) d :
  load_path mode p = Some p' ->
  length (observations p) = length (rewards p) ->
  length (actions p) = length (rewards p) ->
  match terminals p with Some t => Some t | None => dones p end = Some d ->
  length d = length (rewards p) ->
  Forall (fun o => length o = state_dim) (observations p) ->
  Forall (fun a => length a = act_dim) (actions p) ->
  (Z.of_nat (length (rewards p)) < 2 ^ 31)%Z ->
  wf_path state_dim act_dim p'.
Proof.
  intros Hload Hobs Hact Hd Hdl Hsd Had H31. unfold load_path in Hload.
  destruct (match mode with
            | delayed => delayed_rewards (rewards p)
            | _ => Some (rewards p)
            end) as [r|] eqn:Er; [|done].
  rewrite bind_Some_l in Hload.
  destruct (discount_cumsum r one) as [g|] eqn:Eg; [|done].
  rewrite bind_Some_l in Hload. injection Hload as <-.
  apply discount_cumsum_length in Eg as [Hne Hgl].
  assert (Hrl : length r = length (rewards p)).
  { destruct mode; try (by injection Er as <-). by apply delayed_rewards_length. }
  unfold wf_path. simpl. rewrite Hrl.
  split; [destruct r; [done|simpl in Hrl; lia]|].
  split; [done|]. split; [done|]. split; [done|].
  split; [by exists d|]. split; [exists g; split; [done|lia]|]. by split.
Qed.

End Delayed.

(** C6. In delayed mode the loader moves the whole reward sum onto the last
    step before return-to-go is computed: rewards [xs ++ [xl]] become zeros
    followed by their sum, the stored return-to-go is [discount_cumsum] of
    that transformed series, and rewards [1,2,3] become [0,0,6] with
    return-to-go [6,6,6]. *)
Theorem delayed_transform_then_rtg :
  (forall (R : Type) (HR : Scalar R) (p : @Path R) (xs : list R) (xl : R),
     rewards p = xs ++ [xl] ->
     exists p', load_path delayed p = Some p' /\
       rewards p' = replicate (length xs) zero ++ [np_sum (rewards p)] /\
       is_Some (rtg p') /\
       rtg p' = discount_cumsum (rewards p') one) /\
  (forall p : @Path Q,
     rewards p = [1; 2; 3]%Q ->
     exists p', load_path delayed p = Some p' /\
       rewards p' = [0; 0; 6]%Q /\
       rtg p' = Some [6; 6; 6]%Q).
Proof.
  split.
  - intros R HR p xs xl Hr. exact (load_path_delayed p xs xl Hr).
  - intros p Hr. unfold load_path. rewrite Hr.
    eexists. split; [reflexivity|]. split; reflexivity.
Qed.

Lemma delayed_transform_then_rtg_witness :
  rewards raw_A = [2; 2; 2; 2]%Q ++ [2%Q] /\
  exists p', load_path delayed raw_A = Some p' /\
    rewards p' = replicate 4 zero ++ [np_sum (rewards raw_A)] /\
    is_Some (rtg p') /\
    rtg p' = discount_cumsum (rewards p') one.
Proof.
  split; [reflexivity|].
  apply (proj1 delayed_transform_then_rtg Q Q_Scalar raw_A [2; 2; 2; 2]%Q 2%Q).
  reflexivity.
Defined.

(** ** Selection of the top trajectories *)

Section Selection.
Context {R : Type} `{Scalar R}.

Lemma key_le_refl p : key_le p p.
Proof. unfold key_le. by destruct (leb_total (snd p) (snd p)). Qed.

Lemma insert_by_perm p l : insert_by p l ≡ₚ p :: l.
Proof.
  induction l as [|q l IH]; simpl; [done|].
  destruct (leb (snd p) (snd q)); [done|].
  rewrite IH. apply Permutation_swap.
Qed.

Lemma sort_by_perm l : sort_by l ≡ₚ l.
Proof.
  induction l as [|p l IH]; simpl; [done|].
  by rewrite insert_by_perm, IH.
Qed.

Lemma insert_by_sorted p l :
  StronglySorted key_le l -> StronglySorted key_le (insert_by p l).
Proof.
  induction l as [|q l IH]; intros Hs; simpl.
  - repeat constructor.
  - apply StronglySorted_cons in Hs as [Hq Hl].
    destruct (leb (snd p) (snd q)) eqn:E.
    + apply StronglySorted_cons. split.
      * constructor; [done|].
        eapply Forall_impl; [exact Hq|].
        intros r Hr. unfold key_le in *. by eapply leb_trans.
      * apply StronglySorted_cons. done.
    + apply StronglySorted_cons. split; [|by apply IH].
      rewrite insert_by_perm. constructor; [|done].
      unfold key_le. destruct (leb_total (snd p) (snd q)); congruence.
Qed.

Lemma sort_by_sorted l : StronglySorted key_le (sort_by l).
Proof.
  induction l as [|p l IH]; simpl; [constructor|by apply insert_by_sorted].
Qed.

Lemma fst_imap_pair (keys : list R) j :
  fst <$> imap (fun i k => (j + i, k)) keys = seq j (length keys).
Proof.
  revert j. induction keys as [|k keys IH]; intros j; [done|].
  rewrite imap_cons. simpl. f_equal; [lia|].
  rewrite <- (IH (S j)). f_equal. apply imap_ext. intros i x _. simpl. f_equal. lia.
Qed.

Lemma np_argsort_perm (keys : list R) : np_argsort keys ≡ₚ seq 0 (length keys).
Proof.
  unfold np_argsort. rewrite sort_by_perm.
  by rewrite <- (fst_imap_pair keys 0).
Qed.

Lemma np_argsort_length (keys : list R) : length (np_argsort keys) = length keys.
Proof. by rewrite np_argsort_perm, length_seq. Qed.

Lemma np_argsort_lt (keys : list R) i : i ∈ np_argsort keys -> i < length keys.
Proof. rewrite np_argsort_perm, elem_of_seq. lia. Qed.


(** The loop stops at a cut [k'] of the ascending order: everything from
    [k'] on is selected, and either nothing was added, or what is selected
    fits the budget; the trajectory just below the cut does not fit. *)
Lemma select_loop_spec (lens srt : list nat) (B : Z) : forall k T c,
  k <= length srt ->
  (forall i, i ∈ srt -> i < length lens) ->
  T = Z.of_nat (selected_timesteps lens (drop k srt)) ->
  c = length srt - k ->
  exists k', k' <= k /\
    select_loop lens srt B k T c
    = Some (Z.of_nat (selected_timesteps lens (drop k' srt)), length srt - k') /\
    (k' = k \/ (Z.of_nat (selected_timesteps lens (drop k' srt)) <= B)%Z) /\
    (k' = 0 \/ exists i, srt !! (k' - 1) = Some i /\
        ~ (Z.of_nat (selected_timesteps lens (drop k' srt))
           + Z.of_nat (default 0%nat (lens !! i)) <= B)%Z).
Proof.
  induction k as [|ind IH]; intros T c Hk Hval HT Hc.
  - exists 0. simpl. subst. rewrite Nat.sub_0_r. repeat split; auto.
  - destruct (lookup_lt_is_Some_2 srt ind) as [i Hi]; [lia|].
    assert (Hil : i < length lens) by (apply Hval; by eapply list_elem_of_lookup_2).
    destruct (lookup_lt_is_Some_2 lens i) as [len Hlen]; [done|].
    simpl. rewrite Hi. simpl. rewrite Hlen. simpl.
    assert (Hdrop : selected_timesteps lens (drop ind srt)
                    = len + selected_timesteps lens (drop (S ind) srt)).
    { rewrite (drop_S _ _ _ Hi). unfold selected_timesteps. simpl. by rewrite Hlen. }
    destruct (T + Z.of_nat len <=? B)%Z eqn:E.
    + apply Z.leb_le in E.
      destruct (IH (T + Z.of_nat len)%Z (c + 1)) as (k' & Hk' & Hrun & Hfit & Hstop);
        [lia|done|rewrite Hdrop; lia|lia|].
      exists k'. split; [lia|]. split; [done|]. split; [|done].
      destruct Hfit as [->|Hfit]; [|by right].
      right. rewrite Hdrop. lia.
    + apply Z.leb_gt in E. exists (S ind). split; [lia|].
      split; [by subst|]. split; [by left|].
      right. exists i. simpl. rewrite Nat.sub_0_r. split; [done|].
      rewrite Hlen. simpl. lia.
Qed.



Lemma select_loop_count (lens srt : list nat) (B : Z) k : forall T c T' c',
  select_loop lens srt B k T c = Some (T', c') -> c <= c' <= c + k.
Proof.
  induction k as [|ind IH]; intros T c T' c' Hrun; simpl in Hrun.
  - injection Hrun as _ <-. lia.
  - destruct (srt !! ind) as [i|]; [|done]. rewrite bind_Some_l in Hrun.
    destruct (lens !! i) as [len|]; [|done]. rewrite bind_Some_l in Hrun.
    destruct (T + Z.of_nat len <=? B)%Z.
    + apply IH in Hrun. lia.
    + injection Hrun as _ <-. lia.
Qed.

(** What the selector hands to the sampler: its index list, with
    [num_trajectories] its length, is a well-formed selection. *)
Lemma select_trajectories_wf (pct_traj : R) (trajectories : list Path) sel ts :
  select_trajectories pct_traj trajectories = Some (sel, ts) ->
  wf_selection trajectories sel (length sel).
Proof.
  unfold select_trajectories. intros Hsel.
  set (srt := np_argsort (traj_total_return_of trajectories)) in *.
  assert (Hslen : length srt = length trajectories).
  { unfold srt. rewrite np_argsort_length. unfold traj_total_return_of.
    by rewrite length_map. }
  destruct (py_index srt (-1)) as [best|] eqn:Eb; [|done].
  rewrite bind_Some_l in Hsel.
  destruct (traj_lens_of trajectories !! best) as [lb|]; [|done].
  rewrite bind_Some_l in Hsel.
  destruct (select_loop _ _ _ _ _ _) as [[T c]|] eqn:Eloop; [|done].
  rewrite bind_Some_l in Hsel. injection Hsel as <- _.
  apply select_loop_count in Eloop.
  assert (Hn : 0 < length trajectories).
  { destruct trajectories; [|simpl; lia]. by destruct srt. }
  assert (Hcut : py_slice_start (length srt) (- Z.of_nat c) = length srt - c).
  { unfold py_slice_start. destruct (- Z.of_nat c <? 0)%Z eqn:E; [lia|].
    apply Z.ltb_ge in E. lia. }
  rewrite Hcut. unfold wf_selection. rewrite length_drop.
  split; [lia|]. split; [done|].
  apply Forall_drop, Forall_forall. intros i Hi.
  apply np_argsort_lt in Hi. unfold traj_total_return_of in Hi.
  by rewrite length_map in Hi.
Qed.

End Selection.



(** ** The batch sampler *)

Section Slices.
Context {A : Type}.

(** Writing [w] values into the last [w] cells of a fresh row. *)
Lemma np_set_from_suffix (n w : nat) (pad : A) (vals : list A) :
  length vals = w -> w <= n -> (1 <= w \/ n = 0) ->
  np_set_from (replicate n pad) (- Z.of_nat w) vals
  = Some (replicate (n - w) pad ++ vals).
Proof.
  intros Hl Hw Hpos. unfold np_set_from. rewrite length_replicate.
  assert (Hs : py_slice_start n (- Z.of_nat w) = n - w).
  { unfold py_slice_start.
    destruct (- Z.of_nat w <? 0)%Z eqn:E; [lia|].
    apply Z.ltb_ge in E. lia. }
  rewrite Hs. rewrite decide_True by lia.
  rewrite take_replicate. do 3 f_equal. lia.
Qed.

Lemma py_index_nat (arr : list A) (i : nat) : py_index arr (Z.of_nat i) = arr !! i.
Proof.
  unfold py_index. destruct (0 <=? Z.of_nat i)%Z eqn:E.
  - f_equal. lia.
  - apply Z.leb_gt in E. lia.
Qed.

(** Reading the indices [s, s+1, ..., s+n-1] of an array that has them. *)
Lemma np_take_window (arr : list A) : forall n s,
  s + n <= length arr ->
  np_take arr (np_arange (Z.of_nat s) (Z.of_nat (s + n)))
  = Some (take n (drop s arr)).
Proof.
  intros n s Hs. unfold np_take, np_arange.
  replace (Z.to_nat (Z.of_nat (s + n) - Z.of_nat s)) with n by lia.
  apply mapM_Some. apply Forall2_same_length_lookup. split.
  - rewrite length_map, length_seq, length_take, length_drop. lia.
  - intros i z x Hz Hx.
    rewrite list_lookup_fmap in Hz.
    destruct (seq 0 n !! i) as [k|] eqn:Ek; [|done].
    apply lookup_seq in Ek as [-> Hi]. simpl in Hz. inversion Hz; subst z.
    rewrite lookup_take_lt, lookup_drop in Hx by done.
    replace (Z.of_nat s + Z.of_nat i)%Z with (Z.of_nat (s + i)) by lia.
    by rewrite py_index_nat.
Qed.

Lemma mapM_lookup_spec {B} (f : A -> option B) (l : list A)
    (P : nat -> A -> B -> Prop) :
  (forall i x, l !! i = Some x -> exists y, f x = Some y /\ P i x y) ->
  exists k, mapM f l = Some k /\ length k = length l /\
    forall i x y, l !! i = Some x -> k !! i = Some y -> P i x y.
Proof.
  intros Hall.
  destruct (mapM f l) as [k|] eqn:E.
  - exists k. split; [done|].
    apply mapM_Some in E. apply Forall2_same_length_lookup in E as [Hlen Hk].
    split; [done|]. intros i x y Hx Hy.
    destruct (Hall i x Hx) as (y' & Hy' & HP).
    specialize (Hk i x y Hx Hy). congruence.
  - apply mapM_None in E. apply Exists_exists in E as (x & Hin & Hx).
    apply list_elem_of_lookup in Hin as [i Hi].
    destruct (Hall i x Hi) as (y & Hy & _). congruence.
Qed.

End Slices.

Section BatchRows.
Context {R : Type} `{Scalar R}.
Variables state_dim act_dim : nat.
Variable scale : R.

Lemma window_len_bounds max_len L start :
  start < L ->
  window_len max_len L start <= max_len /\
  start + window_len max_len L start <= L /\
  (1 <= window_len max_len L start \/ max_len = 0) /\
  window_len max_len L start = Nat.min max_len (L - start).
Proof. unfold window_len. lia. Qed.

Lemma window_end max_len L start :
  start < L ->
  Z.min (Z.of_nat start + Z.of_nat max_len) (Z.of_nat L)
  = Z.of_nat (start + window_len max_len L start).
Proof. unfold window_len. lia. Qed.

Lemma mapM_np_bcast_row dim (l : list (list R)) :
  Forall (fun v => length v = dim) l -> mapM (np_bcast_row dim) l = Some l.
Proof.
  intros Hl. apply mapM_Some. apply Forall2_same_length_lookup. split; [done|].
  intros i x y Hx Hy. assert (x = y) as -> by congruence.
  unfold np_bcast_row. rewrite decide_True; [done|].
  eapply Forall_lookup_1 in Hl; [|exact Hx]. done.
Qed.

(** The row a window yields: padding on the left, the window on the right. *)
Lemma fill_row_spec max_len (traj : Path) start :
  wf_path state_dim act_dim traj ->
  start < length (rewards traj) ->
  let w := window_len max_len (length (rewards traj)) start in
  exists d g,
    dones traj = Some d /\ rtg traj = Some g /\
    fill_row scale state_dim act_dim max_len traj
      (np_arange (Z.of_nat start) (Z.of_nat (start + w))) (Z.of_nat w)
    = Some {|
        row_s := replicate (max_len - w) (s_pad state_dim)
                 ++ take w (drop start (observations traj));
        row_a := replicate (max_len - w) (a_pad act_dim)
                 ++ take w (drop start (actions traj));
        row_r := replicate (max_len - w) zero ++ take w (drop start (rewards traj));
        row_d := replicate (max_len - w) d_pad
                 ++ map of_bool (take w (drop start d));
        row_rtg := replicate (max_len - w) zero
                   ++ map (fun v => div v scale) (take w (drop start g));
        row_mask := replicate (max_len - w) false ++ replicate w true |}.
Proof.
  intros (HL & _ & Hobs & Hact & (d & Hd & Hdl) & (g & Hg & Hgl) & Hsd & Had) Hstart w.
  destruct (window_len_bounds max_len (length (rewards traj)) start Hstart)
    as (Hw1 & Hw2 & Hw3 & _). fold w in Hw1, Hw2, Hw3.
  exists d, g. split; [done|]. split; [done|].
  unfold fill_row.
  rewrite (np_take_window (observations traj)) by lia. rewrite bind_Some_l.
  rewrite (mapM_np_bcast_row state_dim) by (by apply Forall_take, Forall_drop).
  rewrite bind_Some_l.
  rewrite (np_set_from_suffix max_len w (s_pad state_dim));
    [|rewrite length_take, length_drop; lia|done|done].
  rewrite bind_Some_l.
  rewrite (np_take_window (actions traj)) by lia. rewrite bind_Some_l.
  rewrite (mapM_np_bcast_row act_dim) by (by apply Forall_take, Forall_drop).
  rewrite bind_Some_l.
  rewrite (np_set_from_suffix max_len w (a_pad act_dim));
    [|rewrite length_take, length_drop; lia|done|done].
  rewrite bind_Some_l.
  rewrite (np_take_window (rewards traj)) by lia. rewrite bind_Some_l.
  rewrite (np_set_from_suffix max_len w zero (take w (drop start (rewards traj))));
    [|rewrite length_take, length_drop; lia|done|done].
  rewrite bind_Some_l.
  rewrite Hd, bind_Some_l.
  rewrite (np_take_window d) by lia. rewrite bind_Some_l.
  rewrite (np_set_from_suffix max_len w d_pad);
    [|rewrite length_map, length_take, length_drop; lia|done|done].
  rewrite bind_Some_l.
  rewrite Hg, bind_Some_l.
  rewrite (np_take_window g) by lia. rewrite bind_Some_l.
  rewrite (np_set_from_suffix max_len w zero
             (map (fun v => div v scale) (take w (drop start g))));
    [|rewrite length_map, length_take, length_drop; lia|done|done].
  rewrite bind_Some_l.
  unfold np_ones_bool.
  destruct (Z.of_nat w <? 0)%Z eqn:E; [lia|]. rewrite bind_Some_l.
  rewrite Nat2Z.id.
  rewrite (np_set_from_suffix max_len w false); [|by rewrite length_replicate|done|done].
  by rewrite bind_Some_l.
Qed.

End BatchRows.

Section BatchSpec.
Context {R : Type} `{Scalar R}.
Variable trajectories : list (@Path R).
Variable sorted_return_inds : list nat.
Variable num_trajectories : nat.
Variables state_mean state_std : list R.
Variable scale : R.
Variables state_dim act_dim : nat.
Variable np_rng : nat -> nat.
Variable py_rng : nat -> nat.

Hypothesis Hsel : wf_selection trajectories sorted_return_inds num_trajectories.
Hypothesis Htraj : Forall (wf_path state_dim act_dim) trajectories.
Hypothesis Hmean : length state_mean = state_dim.
Hypothesis Hstd : length state_std = state_dim.

Lemma np_random_choice_ok bs :
  np_random_choice np_rng num_trajectories bs
  = Some (map (fun k => np_rng k mod num_trajectories) (seq 0 bs)).
Proof.
  unfold np_random_choice. destruct Hsel as (Hpos & _).
  rewrite decide_False; [done|]. lia.
Qed.

Lemma batch_sources_ok bs :
  exists srcs,
    batch_sources_of trajectories sorted_return_inds
      (map (fun k => np_rng k mod num_trajectories) (seq 0 bs)) = Some srcs /\
    length srcs = bs /\
    forall i traj, srcs !! i = Some traj ->
      drawn_traj trajectories sorted_return_inds num_trajectories np_rng i = Some traj /\
      wf_path state_dim act_dim traj.
Proof.
  destruct Hsel as (Hpos & Hlen & Hidx).
  unfold batch_sources_of.
  edestruct (mapM_lookup_spec
    (fun idx => i ← sorted_return_inds !! idx; trajectories !! i)
    (map (fun k => np_rng k mod num_trajectories) (seq 0 bs))
    (fun i idx traj =>
       (j ← sorted_return_inds !! idx; trajectories !! j) = Some traj /\
       wf_path state_dim act_dim traj)) as (srcs & Hrun & Hl & Hrows).
  - intros i idx Hi. rewrite list_lookup_fmap in Hi.
    destruct (seq 0 bs !! i) as [k|] eqn:Ek; [|done].
    apply lookup_seq in Ek as [-> Hib]. simpl in Hi. inversion Hi; subst idx.
    destruct (lookup_lt_is_Some_2 sorted_return_inds (np_rng i mod num_trajectories))
      as [j Hj]; [rewrite Hlen; apply Nat.mod_upper_bound; lia|].
    assert (Hjl : j < length trajectories) by (eapply Forall_lookup_1 in Hidx; [|exact Hj]; done).
    destruct (lookup_lt_is_Some_2 trajectories j Hjl) as [traj Ht].
    exists traj. rewrite Hj. simpl. split; [done|]. split; [done|].
    eapply Forall_lookup_1 in Htraj; [|exact Ht]. done.
  - exists srcs. split; [done|]. split; [by rewrite Hl, length_map, length_seq|].
    intros i traj Hi.
    assert (Hib : i < bs).
    { apply lookup_lt_Some in Hi. rewrite Hl, length_map, length_seq in Hi. done. }
    destruct (Hrows i (np_rng i mod num_trajectories) traj) as [Hd Hw]; [|done|].
    + rewrite list_lookup_fmap, lookup_seq_lt by done. done.
    + by split.
Qed.

Lemma start_indices_ok (srcs : list (@Path R)) :
  (forall i traj, srcs !! i = Some traj -> 1 <= length (rewards traj)) ->
  exists starts,
    start_indices_of py_rng (map (fun traj => length (rewards traj)) srcs) = Some starts /\
    length starts = length srcs /\
    forall i traj, srcs !! i = Some traj ->
      starts !! i = Some (Z.of_nat (drawn_start py_rng i traj)).
Proof.
  intros Hpos. unfold start_indices_of.
  edestruct (mapM_lookup_spec
    (fun '(k, batch_len) => randint (py_rng k) 0 (Z.of_nat batch_len - 1))
    (imap (fun k batch_len => (k, batch_len)) (map (fun traj => length (rewards traj)) srcs))
    (fun i (p : nat * nat) z => z = Z.of_nat (py_rng i mod snd p)))
    as (starts & Hrun & Hl & Hrows).
  - intros i [k L] Hi. apply list_lookup_imap_Some in Hi as (L' & HL' & Heq).
    inversion Heq; subst k L'. clear Heq.
    rewrite list_lookup_fmap in HL'.
    destruct (srcs !! i) as [traj|] eqn:Et; [|done]. simpl in HL'. inversion HL'; subst L.
    specialize (Hpos i traj Et).
    unfold randint. destruct (Z.of_nat (length (rewards traj)) - 1 <? 0)%Z eqn:E; [lia|].
    eexists. split; [done|]. simpl.
    replace (Z.of_nat (length (rewards traj)) - 1 - 0 + 1)%Z
      with (Z.of_nat (length (rewards traj))) by lia.
    rewrite Nat2Z.inj_mod. lia.
  - exists starts. split; [done|].
    rewrite length_imap, length_map in Hl. split; [done|].
    intros i traj Hi.
    destruct (lookup_lt_is_Some_2 starts i) as [z Hz].
    { rewrite Hl. by eapply lookup_lt_Some. }
    rewrite Hz. f_equal.
    apply (Hrows i (i, length (rewards traj)) z); [|done].
    apply list_lookup_imap_Some. exists (length (rewards traj)).
    rewrite list_lookup_fmap, Hi. done.
Qed.

Lemma wrap32_small z : (- 2 ^ 31 <= z < 2 ^ 31)%Z -> wrap32 z = z.
Proof. intros Hz. unfold wrap32. rewrite Z.mod_small; lia. Qed.

Lemma pad_sequences_row_spec max_len (s : list Z) :
  length s <= max_len ->
  pad_sequences_row max_len (-1) s
  = Some (replicate (max_len - length s) (-1)%Z ++ map wrap32 s).
Proof.
  intros Hs. unfold pad_sequences_row.
  rewrite (wrap32_small (-1)) by lia.
  destruct s as [|z s']; [simpl; by rewrite Nat.sub_0_r, app_nil_r|].
  set (s := z :: s') in *.
  assert (Hpos : 1 <= length s) by (simpl; lia).
  assert (Hcut : py_slice_start (length s) (- Z.of_nat max_len) = 0).
  { unfold py_slice_start. destruct (- Z.of_nat max_len <? 0)%Z eqn:E; lia. }
  rewrite Hcut, drop_0.
  apply np_set_from_suffix; [by rewrite length_map|done|by left].
Qed.

Lemma np_inplace_ok op (arr : list (list (list R))) (m : list R) :
  length m = state_dim ->
  np_inplace op state_dim arr m = Some (map (map (fun v => zip_with op v m)) arr).
Proof. intros Hm. unfold np_inplace. by rewrite decide_True. Qed.

(** What [get_batch] returns: for every row, the drawn trajectory and
    start offset, and the content of the row in each of the seven arrays. *)
Lemma get_batch_spec batch_size max_len :
  exists b,
    get_batch trajectories sorted_return_inds num_trajectories
      state_mean state_std scale state_dim act_dim np_rng py_rng
      batch_size max_len = Some b /\
    (length (b_s b) = batch_size /\ length (b_a b) = batch_size /\
     length (b_r b) = batch_size /\ length (b_d b) = batch_size /\
     length (b_rtg b) = batch_size /\ length (b_timesteps b) = batch_size /\
     length (b_mask b) = batch_size) /\
    forall i, i < batch_size ->
      exists traj d g,
        drawn_traj trajectories sorted_return_inds num_trajectories np_rng i
          = Some traj /\
        wf_path state_dim act_dim traj /\
        dones traj = Some d /\ rtg traj = Some g /\
        let start := drawn_start py_rng i traj in
        let w := window_len max_len (length (rewards traj)) start in
        b_s b !! i = Some (map (normalize_obs state_mean state_std)
                             (left_pad max_len w (s_pad state_dim)
                                (window (observations traj) start w))) /\
        b_a b !! i = Some (left_pad max_len w (a_pad act_dim)
                             (window (actions traj) start w)) /\
        b_r b !! i = Some (map (fun x => [x])
                             (left_pad max_len w zero (window (rewards traj) start w))) /\
        b_d b !! i = Some (map (fun x => [x])
                             (left_pad max_len w d_pad
                                (map of_bool (window d start w)))) /\
        b_rtg b !! i = Some (map (fun x => [x])
                               (left_pad max_len w zero
                                  (map (fun v => div v scale) (window g start w)))) /\
        b_timesteps b !! i
          = Some (left_pad max_len w 0%Z
                    (map (fun k => Z.of_nat (start + k) + 1)%Z (seq 0 w))) /\
        b_mask b !! i = Some (left_pad max_len w false (replicate w true)).
Proof.
  unfold get_batch.
  rewrite np_random_choice_ok, bind_Some_l.
  destruct (batch_sources_ok batch_size) as (srcs & Hsrcs & Hsl & Hsrc).
  rewrite Hsrcs, bind_Some_l.
  destruct (start_indices_ok srcs) as (starts & Hstarts & Hstl & Hst).
  { intros i traj Hi. destruct (Hsrc i traj Hi) as [_ Hw]. apply Hw. }
  rewrite Hstarts, bind_Some_l.
  set (batch_lens := map (fun traj => length (rewards traj)) srcs).
  set (ends := end_indices_of max_len starts batch_lens).
  set (tss := zip_with np_arange starts ends).
  set (sls := zip_with (fun start_idx end_idx => (end_idx - start_idx)%Z) starts ends).
  (* every row of the zipped parameters is the window of its trajectory *)
  assert (Hparams : forall i traj, srcs !! i = Some traj ->
    let start := drawn_start py_rng i traj in
    let w := window_len max_len (length (rewards traj)) start in
    start < length (rewards traj) /\
    tss !! i = Some (np_arange (Z.of_nat start) (Z.of_nat (start + w))) /\
    sls !! i = Some (Z.of_nat w)).
  { intros i traj Hi start w.
    destruct (Hsrc i traj Hi) as [_ Hw].
    assert (Hlt : start < length (rewards traj)).
    { unfold start, drawn_start. apply Nat.mod_upper_bound. destruct Hw; lia. }
    assert (He : ends !! i = Some (Z.of_nat (start + w))).
    { unfold ends, end_indices_of. apply lookup_zip_with_Some.
      exists (Z.of_nat start), (length (rewards traj)).
      split; [by rewrite window_end|]. split; [by apply Hst|].
      unfold batch_lens. by rewrite list_lookup_fmap, Hi. }
    split; [done|]. split.
    - unfold tss. apply lookup_zip_with_Some.
      exists (Z.of_nat start), (Z.of_nat (start + w)). split; [done|]. split; [by apply Hst|done].
    - unfold sls. apply lookup_zip_with_Some.
      exists (Z.of_nat start), (Z.of_nat (start + w)). split; [lia|]. split; [by apply Hst|done]. }
  assert (Hlens : length tss = batch_size /\ length sls = batch_size).
  { unfold tss, sls, ends, end_indices_of, batch_lens.
    rewrite !length_zip_with, length_map. lia. }
  destruct Hlens as [Htl Hsll].
  edestruct (mapM_lookup_spec
    (fun '(traj, t_steps, seq_len) =>
       fill_row scale state_dim act_dim max_len traj t_steps seq_len)
    (zip (zip srcs tss) sls)
    (fun i (p : @Path R * list Z * Z) row =>
       fill_row scale state_dim act_dim max_len (fst (fst p)) (snd (fst p)) (snd p)
       = Some row)) as (rows & Hrows & Hrl & Hrow).
  { intros i [[traj ts] sl] Hi.
    apply lookup_zip_with_Some in Hi as (p & sl' & Heq & Hp & Hsl').
    apply lookup_zip_with_Some in Hp as (traj' & ts' & Heq' & Ht & Hts).
    subst p. inversion Heq; subst traj' ts' sl'. clear Heq.
    destruct (Hparams i traj Ht) as (Hlt & Hts' & Hsls').
    destruct (Hsrc i traj Ht) as [_ Hw].
    destruct (fill_row_spec state_dim act_dim scale max_len traj _ Hw Hlt)
      as (d & g & _ & _ & Hfill).
    rewrite Hts in Hts'. inversion Hts'; subst ts.
    rewrite Hsl' in Hsls'. inversion Hsls'; subst sl.
    eexists. split; [exact Hfill|]. simpl. exact Hfill. }
  rewrite Hrows, bind_Some_l.
  rewrite !length_zip_with in Hrl.
  rewrite (np_inplace_ok sub) by done. rewrite bind_Some_l.
  rewrite (np_inplace_ok div) by done. rewrite bind_Some_l.
  edestruct (mapM_lookup_spec (pad_sequences_row max_len (-1)) tss
    (fun i ts row => pad_sequences_row max_len (-1) ts = Some row))
    as (padded & Hpad & Hpl & Hprow).
  { intros i ts Hi.
    destruct (lookup_lt_is_Some_2 srcs i) as [traj Ht].
    { apply lookup_lt_Some in Hi. lia. }
    destruct (Hparams i traj Ht) as (Hlt & Hts & _).
    rewrite Hi in Hts. inversion Hts; subst ts.
    assert (Hal : length (np_arange (Z.of_nat (drawn_start py_rng i traj))
              (Z.of_nat (drawn_start py_rng i traj
                 + window_len max_len (length (rewards traj))
                     (drawn_start py_rng i traj)))) <= max_len).
    { unfold np_arange. rewrite length_map, length_seq.
      pose proof (window_len_bounds max_len _ _ Hlt). lia. }
    eexists. split; by apply pad_sequences_row_spec. }
  unfold pad_sequences. rewrite Hpad, bind_Some_l.
  eexists. split; [reflexivity|]. simpl.
  split.
  { rewrite !length_map. lia. }
  intros i Hi.
  destruct (lookup_lt_is_Some_2 srcs i) as [traj Ht]; [lia|].
  destruct (Hsrc i traj Ht) as [Hdrawn Hw].
  destruct (Hparams i traj Ht) as (Hlt & Hts & Hsls).
  destruct (fill_row_spec state_dim act_dim scale max_len traj _ Hw Hlt)
    as (d & g & Hd & Hg & Hfill).
  destruct (lookup_lt_is_Some_2 rows i) as [row Hr]; [lia|].
  assert (Hzip : zip (zip srcs tss) sls !! i
            = Some (traj, np_arange (Z.of_nat (drawn_start py_rng i traj))
                            (Z.of_nat (drawn_start py_rng i traj
                               + window_len max_len (length (rewards traj))
                                   (drawn_start py_rng i traj))),
                    Z.of_nat (window_len max_len (length (rewards traj))
                                (drawn_start py_rng i traj)))).
  { apply lookup_zip_with_Some. eexists _, _. split; [reflexivity|]. split; [|done].
    apply lookup_zip_with_Some. eexists _, _. split; [reflexivity|]. by split. }
  pose proof (Hrow i _ row Hzip Hr) as Hrowi. simpl in Hrowi.
  rewrite Hfill in Hrowi. injection Hrowi as <-.
  destruct (lookup_lt_is_Some_2 padded i) as [prow Hp]; [lia|].
  pose proof (Hprow i _ prow Hts Hp) as Hprowi.
  pose proof (window_len_bounds max_len _ _ Hlt) as (Hwb1 & Hwb2 & Hwb3 & _).
  rewrite pad_sequences_row_spec in Hprowi
    by (unfold np_arange; rewrite length_map, length_seq; lia).
  injection Hprowi as <-.
  exists traj, d, g. split; [done|]. split; [done|]. split; [done|]. split; [done|].
  simpl. unfold left_pad, window.
  rewrite !list_lookup_fmap, Hr, Hp. simpl.
  repeat split; try done.
  - f_equal. rewrite <- list_fmap_compose. reflexivity.
  - f_equal. unfold np_arange. rewrite length_map, length_seq.
    replace (Z.to_nat (Z.of_nat (drawn_start py_rng i traj
                 + window_len max_len (length (rewards traj)) (drawn_start py_rng i traj))
               - Z.of_nat (drawn_start py_rng i traj)))
      with (window_len max_len (length (rewards traj)) (drawn_start py_rng i traj)) by lia.
    rewrite fmap_app, fmap_replicate. f_equal.
    rewrite <- !list_fmap_compose. apply list_fmap_ext. intros k x Hx. simpl.
    apply lookup_seq in Hx as [-> Hk].
    destruct Hw as (_ & HL31 & _).
    rewrite (wrap32_small (Z.of_nat _ + Z.of_nat _)) by lia.
    rewrite wrap32_small by lia. lia.
Qed.

Lemma left_pad_length {A} max_len w (pad : A) win :
  length win = w -> w <= max_len -> length (left_pad max_len w pad win) = max_len.
Proof. intros Hl Hw. unfold left_pad. rewrite length_app, length_replicate. lia. Qed.

Lemma left_pad_lookup_pad {A} max_len w (pad : A) win j :
  j < max_len - w -> left_pad max_len w pad win !! j = Some pad.
Proof.
  intros Hj. unfold left_pad.
  rewrite lookup_app_l by (by rewrite length_replicate).
  by apply lookup_replicate_2.
Qed.

Lemma left_pad_lookup_win {A} max_len w (pad : A) win j :
  max_len - w <= j ->
  left_pad max_len w pad win !! j = win !! (j - (max_len - w)).
Proof.
  intros Hj. unfold left_pad.
  rewrite lookup_app_r by (by rewrite length_replicate).
  by rewrite length_replicate.
Qed.

Lemma window_lookup {A} (arr : list A) start w k :
  k < w -> window arr start w !! k = arr !! (start + k).
Proof. intros Hk. unfold window. by rewrite lookup_take_lt, lookup_drop. Qed.

Lemma window_length {A} (arr : list A) start w :
  start + w <= length arr -> length (window arr start w) = w.
Proof. intros Hw. unfold window. rewrite length_take, length_drop. lia. Qed.

Lemma cell_row {A} (arr : list (list A)) i j row :
  arr !! i = Some row -> cell arr i j = row !! j.
Proof. intros Hr. unfold cell. by rewrite Hr. Qed.

Lemma shape2_intro {A} (arr : list (list A)) n m :
  length arr = n ->
  (forall i, i < n -> exists row, arr !! i = Some row /\ length row = m) ->
  shape2 arr n m.
Proof.
  intros Hl Hrows. split; [done|]. apply Forall_lookup. intros i row Hi.
  destruct (Hrows i) as (row' & Hr & Hlen).
  { rewrite <- Hl. by eapply lookup_lt_Some. }
  congruence.
Qed.

(** Every cell of a batch: padding to the left of the window, the steps of
    the drawn trajectory inside it. *)
Lemma get_batch_cells batch_size max_len :
  exists b,
    get_batch trajectories sorted_return_inds num_trajectories
      state_mean state_std scale state_dim act_dim np_rng py_rng
      batch_size max_len = Some b /\
    (shape2 (b_s b) batch_size max_len /\ shape2 (b_a b) batch_size max_len /\
     shape2 (b_r b) batch_size max_len /\ shape2 (b_d b) batch_size max_len /\
     shape2 (b_rtg b) batch_size max_len /\
     shape2 (b_timesteps b) batch_size max_len /\
     shape2 (b_mask b) batch_size max_len) /\
    forall i, i < batch_size ->
      exists traj d g,
        drawn_traj trajectories sorted_return_inds num_trajectories np_rng i
          = Some traj /\
        wf_path state_dim act_dim traj /\
        dones traj = Some d /\ rtg traj = Some g /\
        let start := drawn_start py_rng i traj in
        let w := window_len max_len (length (rewards traj)) start in
        let pad := max_len - w in
        b_mask b !! i = Some (replicate pad false ++ replicate w true) /\
        (forall j, j < pad ->
           cell (b_mask b) i j = Some false /\
           cell (b_s b) i j
             = Some (normalize_obs state_mean state_std (s_pad state_dim)) /\
           cell (b_a b) i j = Some (a_pad act_dim) /\
           cell (b_r b) i j = Some [zero] /\
           cell (b_d b) i j = Some [d_pad] /\
           cell (b_rtg b) i j = Some [zero] /\
           cell (b_timesteps b) i j = Some 0%Z) /\
        (forall j, pad <= j < max_len ->
           let t := start + (j - pad) in
           t < length (rewards traj) /\
           cell (b_mask b) i j = Some true /\
           cell (b_s b) i j
             = normalize_obs state_mean state_std <$> observations traj !! t /\
           cell (b_a b) i j = actions traj !! t /\
           cell (b_r b) i j = (fun x => [x]) <$> rewards traj !! t /\
           cell (b_d b) i j = (fun x => [of_bool x]) <$> d !! t /\
           cell (b_rtg b) i j = (fun x => [div x scale]) <$> g !! t /\
           cell (b_timesteps b) i j = Some (Z.of_nat t + 1)%Z).
Proof.
  destruct (get_batch_spec batch_size max_len)
    as (b & Hb & (Ls & La & Lr & Ld & Lg & Lt & Lm) & Hrows).
  exists b. split; [done|]. split.
  { repeat split; try done; apply Forall_lookup; intros i row Hi;
      (assert (Hib : i < batch_size) by (apply lookup_lt_Some in Hi; lia));
      destruct (Hrows i Hib)
        as (traj & d & g & _ & Hw & Hd & Hg & Hs & Ha & Hr & Hdd & Hgg & Hts & Hmk);
      destruct Hw as (HL & _ & Hobs & Hact & (d' & Hd' & Hdl) & (g' & Hg' & Hgl) & _);
      assert (d' = d) as -> by congruence; assert (g' = g) as -> by congruence;
      (assert (Hlt : drawn_start py_rng i traj < length (rewards traj))
         by (apply Nat.mod_upper_bound; lia));
      destruct (window_len_bounds max_len _ _ Hlt) as (Hw1 & Hw2 & _);
      rewrite ?Hs, ?Ha, ?Hr, ?Hdd, ?Hgg, ?Hts, ?Hmk in Hi;
      injection Hi as <-;
      rewrite ?length_map; apply left_pad_length;
      rewrite ?length_map, ?length_seq, ?length_replicate, ?window_length; lia. }
  intros i Hib.
  destruct (Hrows i Hib)
    as (traj & d & g & Hdrawn & Hw & Hd & Hg & Hs & Ha & Hr & Hdd & Hgg & Hts & Hmk).
  exists traj, d, g. do 4 (split; [done|]).
  set (start := drawn_start py_rng i traj) in *.
  set (w := window_len max_len (length (rewards traj)) start) in *.
  simpl. split; [done|].
  pose proof Hw as (HL & _ & Hobs & Hact & (d' & Hd' & Hdl) & (g' & Hg' & Hgl) & _).
  assert (d' = d) as -> by congruence. assert (g' = g) as -> by congruence.
  assert (Hlt : start < length (rewards traj)) by (apply Nat.mod_upper_bound; lia).
  destruct (window_len_bounds max_len _ _ Hlt) as (Hw1 & Hw2 & _). fold w in Hw1, Hw2.
  split.
  - intros j Hj.
    rewrite (cell_row _ _ _ _ Hmk), (cell_row _ _ _ _ Hs), (cell_row _ _ _ _ Ha),
      (cell_row _ _ _ _ Hr), (cell_row _ _ _ _ Hdd), (cell_row _ _ _ _ Hgg),
      (cell_row _ _ _ _ Hts).
    rewrite !list_lookup_fmap, !left_pad_lookup_pad by done. done.
  - intros j Hj.
    assert (Hk : j - (max_len - w) < w) by lia.
    split; [lia|].
    rewrite (cell_row _ _ _ _ Hmk), (cell_row _ _ _ _ Hs), (cell_row _ _ _ _ Ha),
      (cell_row _ _ _ _ Hr), (cell_row _ _ _ _ Hdd), (cell_row _ _ _ _ Hgg),
      (cell_row _ _ _ _ Hts).
    rewrite !list_lookup_fmap, !left_pad_lookup_win by lia.
    rewrite !list_lookup_fmap, !window_lookup by done.
    rewrite lookup_replicate_2 by done.
    rewrite lookup_seq_lt by done.
    repeat split; try done.
    + fold w. by destruct (d !! (start + (j - (max_len - w)))).
    + fold w. by destruct (g !! (start + (j - (max_len - w)))).
Qed.

(** C2 (amended). Every row of the mask is false on a prefix and true on
    the matching suffix, and the suffix is as long as the window of the
    row, [end - start] with [end = min(start + max_len, L)], that is
    [min(max_len, L - start)] for the trajectory length [L] and the offset
    [start] drawn for the row: at most [min(max_len, L)], and equal to it
    when the window starts at 0. *)
Theorem mask_suffix_is_window_length batch_size max_len :
  exists b,
    get_batch trajectories sorted_return_inds num_trajectories
      state_mean state_std scale state_dim act_dim np_rng py_rng
      batch_size max_len = Some b /\
    forall i, i < batch_size ->
      exists traj,
        drawn_traj trajectories sorted_return_inds num_trajectories np_rng i
          = Some traj /\
        let L := length (rewards traj) in
        let start := drawn_start py_rng i traj in
        let w := window_len max_len L start in
        b_mask b !! i = Some (replicate (max_len - w) false ++ replicate w true) /\
        start < L /\
        w = Nat.min max_len (L - start) /\
        w <= Nat.min max_len L /\
        (start = 0 -> w = Nat.min max_len L).
Proof.
  destruct (get_batch_cells batch_size max_len) as (b & Hb & _ & Hrows).
  exists b. split; [done|]. intros i Hi.
  destruct (Hrows i Hi) as (traj & d & g & Hdrawn & Hw & _ & _ & Hmask & _).
  exists traj. split; [done|]. simpl. split; [done|].
  destruct Hw as (HL & _).
  assert (Hlt : drawn_start py_rng i traj < length (rewards traj))
    by (apply Nat.mod_upper_bound; lia).
  unfold window_len. lia.
Qed.

(** C5. Every array of a batch has first two dimensions
    [(batch_size, max_len)]; where the mask is false the action slot is
    filled with -10, the done slot holds 2 and the timestep is 0; where the
    mask is true the slot holds a step [t] of the drawn trajectory and the
    timestep is [t + 1], which is positive. *)
Theorem get_batch_shapes_and_padding batch_size max_len :
  exists b,
    get_batch trajectories sorted_return_inds num_trajectories
      state_mean state_std scale state_dim act_dim np_rng py_rng
      batch_size max_len = Some b /\
    (shape2 (b_s b) batch_size max_len /\ shape2 (b_a b) batch_size max_len /\
     shape2 (b_r b) batch_size max_len /\ shape2 (b_d b) batch_size max_len /\
     shape2 (b_rtg b) batch_size max_len /\
     shape2 (b_timesteps b) batch_size max_len /\
     shape2 (b_mask b) batch_size max_len) /\
    forall i j, i < batch_size -> j < max_len ->
      (cell (b_mask b) i j = Some false /\
       cell (b_a b) i j = Some (replicate act_dim (of_Z (-10))) /\
       cell (b_d b) i j = Some [of_Z 2] /\
       cell (b_timesteps b) i j = Some 0%Z)
      \/
      (cell (b_mask b) i j = Some true /\
       exists traj t,
         drawn_traj trajectories sorted_return_inds num_trajectories np_rng i
           = Some traj /\
         t < length (rewards traj) /\
         cell (b_a b) i j = actions traj !! t /\
         cell (b_r b) i j = (fun x => [x]) <$> rewards traj !! t /\
         cell (b_timesteps b) i j = Some (Z.of_nat t + 1)%Z /\
         (0 < Z.of_nat t + 1)%Z).
Proof.
  destruct (get_batch_cells batch_size max_len) as (b & Hb & Hshapes & Hrows).
  exists b. split; [done|]. split; [done|]. intros i j Hi Hj.
  destruct (Hrows i Hi) as (traj & d & g & Hdrawn & Hw & _ & _ & _ & Hpad & Hwin).
  simpl in Hpad, Hwin.
  set (w := window_len max_len (length (rewards traj)) (drawn_start py_rng i traj)) in *.
  destruct (decide (j < max_len - w)) as [Hlt|Hge].
  - left. destruct (Hpad j Hlt) as (Hm & _ & Ha & _ & Hd & _ & Ht).
    unfold a_pad in Ha. unfold d_pad in Hd. rewrite mul_1_l in Ha, Hd. done.
  - right. destruct (Hwin j) as (Ht & Hm & _ & Ha & Hr & _ & _ & Hts); [lia|].
    split; [done|]. eexists traj, _. repeat split; try done. lia.
Qed.

(** C9. The batch is built without an out-of-range read: every start
    offset is the [random.randint(0, L - 1)] of its row, lies in [0, L),
    any offset of [0, L) can be drawn, and every index of the window
    [start, min(start + max_len, L)) lies in [0, L), where [L] is the
    length of the trajectory drawn for the row. *)
Theorem window_within_trajectory batch_size max_len :
  exists b batch_source_indices batch_sources start_indices,
    get_batch trajectories sorted_return_inds num_trajectories
      state_mean state_std scale state_dim act_dim np_rng py_rng
      batch_size max_len = Some b /\
    np_random_choice np_rng num_trajectories batch_size = Some batch_source_indices /\
    batch_sources_of trajectories sorted_return_inds batch_source_indices
      = Some batch_sources /\
    length batch_sources = batch_size /\
    start_indices_of py_rng (map (fun traj => length (rewards traj)) batch_sources)
      = Some start_indices /\
    forall i traj, batch_sources !! i = Some traj ->
      let L := Z.of_nat (length (rewards traj)) in
      exists start,
        start_indices !! i = Some start /\
        randint (py_rng i) 0 (L - 1) = Some start /\
        (0 <= start < L)%Z /\
        (forall s, (0 <= s < L)%Z -> exists u, randint u 0 (L - 1) = Some s) /\
        (start <= Z.min (start + Z.of_nat max_len) L <= L)%Z /\
        (forall t, t ∈ np_arange start (Z.min (start + Z.of_nat max_len) L) ->
           (0 <= t < L)%Z) /\
        is_Some (np_take (observations traj)
                   (np_arange start (Z.min (start + Z.of_nat max_len) L))) /\
        is_Some (np_take (actions traj)
                   (np_arange start (Z.min (start + Z.of_nat max_len) L))) /\
        is_Some (np_take (rewards traj)
                   (np_arange start (Z.min (start + Z.of_nat max_len) L))).
Proof.
  destruct (get_batch_cells batch_size max_len) as (b & Hb & _ & _).
  destruct (batch_sources_ok batch_size) as (srcs & Hsrcs & Hsl & Hsrc).
  destruct (start_indices_ok srcs) as (starts & Hstarts & Hstl & Hst).
  { intros i traj Hi. destruct (Hsrc i traj Hi) as [_ Hw]. apply Hw. }
  exists b, (map (fun k => np_rng k mod num_trajectories) (seq 0 batch_size)), srcs, starts.
  split; [done|]. split; [apply np_random_choice_ok|].
  split; [done|]. split; [done|]. split; [done|].
  intros i traj Hi. simpl.
  destruct (Hsrc i traj Hi) as [_ Hw].
  destruct Hw as (HL & _ & Hobs & Hact & _).
  set (L := length (rewards traj)) in *.
  assert (Hlt : drawn_start py_rng i traj < L) by (apply Nat.mod_upper_bound; lia).
  exists (Z.of_nat (drawn_start py_rng i traj)).
  split; [by apply Hst|].
  assert (Hrand : forall u, randint u 0 (Z.of_nat L - 1) = Some (Z.of_nat (u mod L))).
  { intros u. unfold randint. destruct (Z.of_nat L - 1 <? 0)%Z eqn:E; [lia|].
    f_equal. replace (Z.of_nat L - 1 - 0 + 1)%Z with (Z.of_nat L) by lia.
    rewrite Nat2Z.inj_mod. lia. }
  split; [apply Hrand|]. split; [lia|]. split.
  { intros s Hs. exists (Z.to_nat s). rewrite Hrand. f_equal.
    rewrite Nat.mod_small by lia. lia. }
  split; [lia|].
  rewrite (window_end max_len L _ Hlt).
  destruct (window_len_bounds max_len L _ Hlt) as (_ & Hw2 & _).
  split.
  { intros t Ht. unfold np_arange in Ht. apply list_elem_of_fmap in Ht as (k & -> & Hk).
    apply elem_of_seq in Hk. lia. }
  rewrite !np_take_window by lia. repeat split; by eexists.
Qed.


End BatchSpec.

Example demo_selection_all :
  select_trajectories 1%Q demo_trajectories = Some ([1; 0], 10%Z).
Proof. reflexivity. Qed.

(** The end-to-end example of the selector: half of the ten timesteps
    keeps [A] only. *)
Example demo_selection_half :
  select_trajectories (1 # 2)%Q demo_trajectories = Some ([0], 5%Z).
Proof. reflexivity. Qed.

Example demo_batch_mask :
  b_mask <$> demo_get_batch 2 3
  = Some [[false; false; true]; [true; true; true]].
Proof. reflexivity. Qed.

Example demo_batch_timesteps :
  b_timesteps <$> demo_get_batch 2 3 = Some [[0; 0; 5]; [1; 2; 3]]%Z.
Proof. reflexivity. Qed.

(** *** The sampler on the small dataset *)

Ltac demo_selection := vm_compute; repeat split; repeat constructor.
Ltac demo_paths :=
  repeat constructor; vm_compute; try lia; try (eexists; split; reflexivity).

(** C2 as first stated fails: a window that starts on the last of five
    steps has one valid slot, not [min(max_len, 5) = 3]. *)
Lemma mask_suffix_not_min_of_lengths :
  exists b traj,
    demo_get_batch 2 3 = Some b /\
    drawn_traj demo_trajectories demo_sorted_return_inds 2 demo_np_rng 0 = Some traj /\
    length (rewards traj) = 5 /\
    b_mask b !! 0 = Some [false; false; true] /\
    b_mask b !! 0
    <> Some (replicate (3 - Nat.min 3 (length (rewards traj))) false
             ++ replicate (Nat.min 3 (length (rewards traj))) true).
Proof.
  eexists _, _. split; [reflexivity|]. split; [reflexivity|].
  split; [reflexivity|]. split; [reflexivity|]. discriminate.
Qed.

Lemma mask_suffix_is_window_length_witness :
  wf_selection demo_trajectories demo_sorted_return_inds 2 /\
  Forall (wf_path 1 1) demo_trajectories /\
  length demo_state_mean = 1 /\ length demo_state_std = 1 /\
  exists b,
    demo_get_batch 2 3 = Some b /\
    forall i, i < 2 ->
      exists traj,
        drawn_traj demo_trajectories demo_sorted_return_inds 2 demo_np_rng i
          = Some traj /\
        let L := length (rewards traj) in
        let start := drawn_start demo_py_rng i traj in
        let w := window_len 3 L start in
        b_mask b !! i = Some (replicate (3 - w) false ++ replicate w true) /\
        start < L /\
        w = Nat.min 3 (L - start) /\
        w <= Nat.min 3 L /\
        (start = 0 -> w = Nat.min 3 L).
Proof.
  split; [demo_selection|]. split; [demo_paths|].
  split; [reflexivity|]. split; [reflexivity|].
  apply (mask_suffix_is_window_length demo_trajectories demo_sorted_return_inds 2
           demo_state_mean demo_state_std 1000%Q 1 1 demo_np_rng demo_py_rng);
    [demo_selection|demo_paths|reflexivity|reflexivity].
Defined.

Lemma get_batch_shapes_and_padding_witness :
  wf_selection demo_trajectories demo_sorted_return_inds 2 /\
  Forall (wf_path 1 1) demo_trajectories /\
  length demo_state_mean = 1 /\ length demo_state_std = 1 /\
  exists b,
    demo_get_batch 2 3 = Some b /\
    (shape2 (b_s b) 2 3 /\ shape2 (b_a b) 2 3 /\
     shape2 (b_r b) 2 3 /\ shape2 (b_d b) 2 3 /\
     shape2 (b_rtg b) 2 3 /\
     shape2 (b_timesteps b) 2 3 /\
     shape2 (b_mask b) 2 3) /\
    forall i j, i < 2 -> j < 3 ->
      (cell (b_mask b) i j = Some false /\
       cell (b_a b) i j = Some (replicate 1 (of_Z (-10))) /\
       cell (b_d b) i j = Some [of_Z 2] /\
       cell (b_timesteps b) i j = Some 0%Z)
      \/
      (cell (b_mask b) i j = Some true /\
       exists traj t,
         drawn_traj demo_trajectories demo_sorted_return_inds 2 demo_np_rng i
           = Some traj /\
         t < length (rewards traj) /\
         cell (b_a b) i j = actions traj !! t /\
         cell (b_r b) i j = (fun x => [x]) <$> rewards traj !! t /\
         cell (b_timesteps b) i j = Some (Z.of_nat t + 1)%Z /\
         (0 < Z.of_nat t + 1)%Z).
Proof.
  split; [demo_selection|]. split; [demo_paths|].
  split; [reflexivity|]. split; [reflexivity|].
  apply (get_batch_shapes_and_padding demo_trajectories demo_sorted_return_inds 2
           demo_state_mean demo_state_std 1000%Q 1 1 demo_np_rng demo_py_rng);
    [demo_selection|demo_paths|reflexivity|reflexivity].
Defined.

Lemma window_within_trajectory_witness :
  wf_selection demo_trajectories demo_sorted_return_inds 2 /\
  Forall (wf_path 1 1) demo_trajectories /\
  length demo_state_mean = 1 /\ length demo_state_std = 1 /\
  exists b batch_source_indices batch_sources start_indices,
    demo_get_batch 2 3 = Some b /\
    np_random_choice demo_np_rng 2 2 = Some batch_source_indices /\
    batch_sources_of demo_trajectories demo_sorted_return_inds batch_source_indices
      = Some batch_sources /\
    length batch_sources = 2 /\
    start_indices_of demo_py_rng (map (fun traj => length (rewards traj)) batch_sources)
      = Some start_indices /\
    forall i traj, batch_sources !! i = Some traj ->
      let L := Z.of_nat (length (rewards traj)) in
      exists start,
        start_indices !! i = Some start /\
        randint (demo_py_rng i) 0 (L - 1) = Some start /\
        (0 <= start < L)%Z /\
        (forall s, (0 <= s < L)%Z -> exists u, randint u 0 (L - 1) = Some s) /\
        (start <= Z.min (start + Z.of_nat 3) L <= L)%Z /\
        (forall t, t ∈ np_arange start (Z.min (start + Z.of_nat 3) L) ->
           (0 <= t < L)%Z) /\
        is_Some (np_take (observations traj)
                   (np_arange start (Z.min (start + Z.of_nat 3) L))) /\
        is_Some (np_take (actions traj)
                   (np_arange start (Z.min (start + Z.of_nat 3) L))) /\
        is_Some (np_take (rewards traj)
                   (np_arange start (Z.min (start + Z.of_nat 3) L))).
Proof.
  split; [demo_selection|]. split; [demo_paths|].
  split; [reflexivity|]. split; [reflexivity|].
  apply (window_within_trajectory demo_trajectories demo_sorted_return_inds 2
           demo_state_mean demo_state_std 1000%Q 1 1 demo_np_rng demo_py_rng);
    [demo_selection|demo_paths|reflexivity|reflexivity].
Defined.



(** ** The parallel evaluator *)

Example demo_eval_one_trace :
  (fun '(st0, trace) =>
     (map done_flags trace, map episode_length trace, map episode_return trace,
      map ev_timesteps trace)) <$> demo_eval_one
  = Some ([[false]; [false]; [true]], [[1]; [2]; [2]]%Z, [[1]; [2]; [2]]%Q,
          [[1; 2]; [1; 2; 3]; [1; 2; 3; 4]]%Q).
Proof. reflexivity. Qed.

Section ColumnOps.
Context {A : Type}.

Lemma append_col_ok (t : list (list A)) (col : list A) :
  length t = length col ->
  append_col t col = Some (zip_with (fun row x => row ++ [x]) t col).
Proof. intros Hl. unfold append_col. by rewrite decide_True. Qed.

Lemma length_drop_last_col (t : list (list A)) :
  length (drop_last_col t) = length t.
Proof. unfold drop_last_col. by rewrite length_map. Qed.

(** On a one-column tensor, dropping the last column and appending a new
    one replaces the column. *)
Lemma replace_col (t : list (list A)) (col : list A) :
  Forall (fun row => length row = 1) t -> length t = length col ->
  zip_with (fun row x => row ++ [x]) (drop_last_col t) col
  = map (fun x => [x]) col.
Proof.
  revert col. induction t as [|row t IH]; intros [|x col] Hrows Hl; simpl in *; try done.
  apply Forall_cons in Hrows as [Hrow Hrows].
  destruct row as [|a [|b row]]; simpl in Hrow; try done.
  simpl. f_equal. apply IH; [done|lia].
Qed.

Lemma last_col_nonempty (t : list (list A)) :
  Forall (fun row => row <> []) t ->
  exists col, last_col t = Some col /\ length col = length t.
Proof.
  intros Hrows. unfold last_col.
  destruct (mapM_lookup_spec (fun row => py_index row (-1)) t (fun _ _ _ => True))
    as (col & Hcol & Hl & _).
  - intros i row Hi. eapply Forall_lookup_1 in Hrows; [|exact Hi].
    rewrite py_index_last by done.
    destruct (lookup_lt_is_Some_2 row (length row - 1)) as [x Hx].
    { destruct row; [done|simpl; lia]. }
    by exists x.
  - by exists col.
Qed.

End ColumnOps.

Lemma last_col_flags (t : list (list bool)) :
  Forall (fun row => length row = 1) t ->
  last_col t = Some (map (existsb id) t).
Proof.
  intros Hrows. unfold last_col. apply mapM_Some.
  apply Forall2_fmap_r, Forall_Forall2_diag.
  eapply Forall_impl; [exact Hrows|]. intros row Hrow.
  destruct row as [|d [|e row]]; simpl in Hrow; try done.
  simpl. by rewrite orb_false_r.
Qed.

Lemma flags_of_column (col : list bool) :
  map (existsb id) (map (fun x => [x]) col) = col.
Proof.
  induction col as [|d col IH]; [done|]. simpl. rewrite orb_false_r. by f_equal.
Qed.

Section EvalSpec.
Context {R : Type} `{Scalar R}.
Variable Env : Type.
Variable make_env : nat -> Env.
Variable env_reset : Env -> Env * @TimeStep R.
Variable env_step : Env -> list R -> Env * @TimeStep R.
Variable get_batch_action :
  list (list (list R)) -> list (list (list R)) -> list (list R) ->
  list (list R) -> list R -> list (list R).
Variable mode : Mode.
Variables state_mean state_std : list R.
Variable scale : R.
Variable act_dim : nat.
Variable num_eval_episodes : nat.
Variable target_rew : R.

Hypothesis Harity : model_arity get_batch_action.

Abbreviation body := (loop_body Env env_step get_batch_action mode
                        state_mean state_std scale act_dim).
Abbreviation loop := (eval_loop Env env_step get_batch_action mode
                        state_mean state_std scale act_dim).
Abbreviation results st := (env_steps Env env_step get_batch_action
                              state_mean state_std act_dim st).

Lemma length_results n (st : @EvalState R Env) :
  wf_eval n st -> length (results st) = n.
Proof.
  intros (He & _ & _ & Hs & _). unfold env_steps, model_actions.
  rewrite length_zip_with, Harity. unfold normalized. rewrite length_map. lia.
Qed.

(** One iteration: it succeeds, keeps the shapes, and changes the done
    flags, the timestep sequence and the two accumulators as follows. *)
Lemma loop_body_spec n t (st : @EvalState R Env) :
  wf_eval n st ->
  exists st',
    body t st = Some (st', forallb id (done_flags st')) /\
    wf_eval n st' /\
    done_flags st'
      = zip_with orb (done_flags st) (map (fun r => is_last (snd r)) (results st)) /\
    ev_timesteps st' = ev_timesteps st ++ [of_Z (t + 2)] /\
    episode_return st'
      = zip_with add (episode_return st)
          (zip_with (fun (d : bool) v => if d then zero else v) (done_flags st')
             (map (fun r => reward (snd r)) (results st))) /\
    episode_length st'
      = zip_with int32_add (episode_length st)
          (zip_with (fun (d : bool) v => if d then 0%Z else v) (done_flags st')
             (replicate (length (done_flags st')) 1%Z)).
Proof.
  intros Hwf. pose proof (length_results n st Hwf) as Hres.
  destruct Hwf as (He & Hd & Hdrows & Hs & Ha & Hr & Hg & Hgrows & Her & Hel).
  assert (Hact : length (model_actions Env get_batch_action state_mean state_std act_dim st) = n).
  { unfold model_actions. rewrite Harity. unfold normalized. by rewrite length_map. }
  unfold loop_body.
  fold (model_actions Env get_batch_action state_mean state_std act_dim st).
  fold (results st).
  set (new_actions := model_actions Env get_batch_action state_mean state_std act_dim st) in *.
  set (ts_s := results st) in *.
  set (actions1 := map (fun row => row ++ [replicate act_dim zero]) (ev_actions st)).
  set (rewards1 := map (fun row => row ++ [zero]) (ev_rewards st)).
  rewrite (append_col_ok (drop_last_col actions1) new_actions)
    by (unfold actions1; rewrite length_drop_last_col, length_map; lia).
  rewrite bind_Some_l.
  rewrite last_col_flags by done. rewrite bind_Some_l.
  fold (done_flags st).
  unfold tf_any2. rewrite decide_True by (unfold done_flags; rewrite !length_map; lia).
  rewrite bind_Some_l.
  set (new_dones := zip_with orb (done_flags st)
                      (map (fun ts => bool_decide (step_type (snd ts) = LAST)) ts_s)).
  assert (Hnd : length new_dones = n).
  { unfold new_dones, done_flags. rewrite length_zip_with, !length_map. lia. }
  rewrite (append_col_ok (drop_last_col (ev_dones st)) new_dones)
    by (rewrite length_drop_last_col; lia).
  rewrite bind_Some_l.
  rewrite replace_col by (done || lia).
  rewrite (append_col_ok (ev_states st)) by (rewrite length_map; lia).
  rewrite bind_Some_l.
  rewrite (append_col_ok (drop_last_col rewards1))
    by (unfold rewards1; rewrite length_drop_last_col, !length_map; lia).
  rewrite bind_Some_l.
  destruct (last_col_nonempty (target_returns st) Hgrows) as (last_target & Hlt & Hltl).
  rewrite Hlt, bind_Some_l.
  assert (Hpred : exists pred_return,
    (match mode with
     | delayed => Some last_target
     | _ => if decide (length last_target = length (map (fun ts => reward (snd ts)) ts_s))
            then Some (zip_with (fun g r => sub g (div r scale)) last_target
                         (map (fun ts => reward (snd ts)) ts_s))
            else None
     end) = Some pred_return /\ length pred_return = n).
  { destruct mode.
    - rewrite decide_True by (rewrite length_map; lia).
      eexists. split; [done|]. rewrite length_zip_with, length_map. lia.
    - eexists. split; [done|]. lia.
    - rewrite decide_True by (rewrite length_map; lia).
      eexists. split; [done|]. rewrite length_zip_with, length_map. lia. }
  destruct Hpred as (pred_return & Hpred & Hpl). rewrite Hpred, bind_Some_l.
  rewrite (append_col_ok (target_returns st)) by lia. rewrite bind_Some_l.
  unfold tf_add_where.
  rewrite !decide_True by (rewrite ?length_map, ?length_replicate; lia).
  rewrite !bind_Some_l.
  eexists. split.
  { apply f_equal. apply (f_equal2 pair); [reflexivity|].
    unfold tf_all_any, done_flags. simpl. rewrite flags_of_column. clear.
    induction new_dones as [|d l IH]; [done|].
    simpl. rewrite orb_false_r. by rewrite IH. }
  match goal with
  | |- context [done_flags ?s'] =>
      assert (Hf : done_flags s' = new_dones)
        by (unfold done_flags; simpl; apply flags_of_column)
  end.
  rewrite !Hf. simpl.
  split.
  { unfold wf_eval. simpl.
    repeat split;
      try (subst actions1 rewards1;
           rewrite ?length_app, ?length_map, ?length_zip_with, ?length_drop,
             ?length_drop_last_col, ?length_map, ?length_replicate; lia).
    - apply Forall_fmap, Forall_true. done.
    - apply Forall_lookup. intros i row Hi.
      apply lookup_zip_with_Some in Hi as (g & x & -> & _ & _). by destruct g. }
  repeat split; done.
Qed.

(** With no episode the evaluator raises before its loop, in every mode. *)
Lemma eval_init_no_episode :
  eval_init Env make_env env_reset mode scale 0 target_rew = None.
Proof. unfold eval_init. simpl. by destruct mode. Qed.

Lemma eval_init_spec :
  mode <> noise -> 0 < num_eval_episodes ->
  exists st0,
    eval_init Env make_env env_reset mode scale num_eval_episodes target_rew
      = Some st0 /\
    wf_eval num_eval_episodes st0 /\
    ev_timesteps st0 = [one] /\
    done_flags st0 = replicate num_eval_episodes false /\
    episode_return st0 = replicate num_eval_episodes zero /\
    episode_length st0 = replicate num_eval_episodes 0%Z.
Proof.
  intros Hmode Hpos. unfold eval_init.
  assert (Hm : forall x : list (list R),
            (match mode with noise => None | _ => Some x end) = Some x)
    by (intros x; by destruct mode).
  assert (Hne : forall x : list (list R), 0 < length x ->
            (match x with [] => None | _ :: _ => Some x end) = Some x).
  { intros [|v x] Hx; [simpl in Hx; lia|done]. }
  rewrite Hm, bind_Some_l.
  rewrite Hne, bind_Some_l by (rewrite !length_map, length_seq; done).
  rewrite append_col_ok by (rewrite length_replicate, !length_map, length_seq; done).
  rewrite bind_Some_l. eexists. split; [done|].
  unfold wf_eval, done_flags. simpl.
  rewrite !length_map, length_seq, !length_replicate, length_zip_with,
    length_replicate, !length_map, length_seq, Nat.min_id.
  repeat split; try done.
  - apply Forall_replicate. done.
  - apply Forall_replicate. done.
  - by rewrite fmap_replicate.
Qed.

(** The run of the loop, iteration by iteration: the [p]-th state of the
    trace comes from its predecessor by [loop_body]; the trace stops at the
    first state in which every episode is done, or after [fuel] iterations. *)
Lemma eval_loop_steps n fuel : forall t (st : @EvalState R Env),
  wf_eval n st ->
  exists trace,
    loop fuel t st = Some trace /\
    length trace <= fuel /\
    (forall p s', trace !! p = Some s' ->
       exists s, (st :: trace) !! p = Some s /\ wf_eval n s /\ wf_eval n s' /\
         body (t + Z.of_nat p) s = Some (s', forallb id (done_flags s'))) /\
    (forall p s', trace !! p = Some s' ->
       forallb id (done_flags s') = true -> length trace = p + 1) /\
    (length trace < fuel ->
       exists s', last trace = Some s' /\ forallb id (done_flags s') = true).
Proof.
  induction fuel as [|fuel IH]; intros t st Hwf.
  - exists []. simpl. repeat split; try done; try lia.
  - destruct (loop_body_spec n t st Hwf) as (st' & Hbody & Hwf' & _).
    simpl. rewrite Hbody, bind_Some_l.
    destruct (forallb id (done_flags st')) eqn:Hdone.
    + exists [st']. simpl. split; [done|]. split; [lia|]. split; [|split].
      * intros [|p] s' Hp; simpl in Hp; [|done]. injection Hp as <-.
        exists st. rewrite Z.add_0_r, Hdone. split; [done|]. split; [done|]. by split.
      * intros [|p] s' Hp _; simpl in Hp; [done|done].
      * intros _. exists st'. by split.
    + destruct (IH (t + 1)%Z st' Hwf') as (rest & Hrest & Hlen & Hsteps & Hstop & Hearly).
      rewrite Hrest, bind_Some_l. exists (st' :: rest).
      split; [done|]. split; [simpl; lia|]. split; [|split].
      * intros [|p] s' Hp; simpl in Hp.
        -- injection Hp as <-. exists st. rewrite Z.add_0_r, Hdone. split; [done|]. split; [done|]. by split.
        -- destruct (Hsteps p s' Hp) as (s & Hs & Hws & Hws' & Hb).
           exists s. split; [done|]. split; [done|]. split; [done|].
           rewrite <- Hb. f_equal. lia.
      * intros [|p] s' Hp Hall; simpl in Hp.
        -- injection Hp as <-. congruence.
        -- simpl. rewrite (Hstop p s' Hp Hall). lia.
      * intros Hlt. simpl in Hlt.
        destruct Hearly as (s' & Hlast & Hall); [lia|].
        exists s'. split; [|done].
        destruct rest as [|r rest]; [done|]. done.
Qed.

(** One iteration never clears a done flag. *)
Lemma loop_body_sticky n t (s s' : @EvalState R Env) b k :
  wf_eval n s -> body t s = Some (s', b) ->
  done_flags s !! k = Some true -> done_flags s' !! k = Some true.
Proof.
  intros Hwf Hb Hk.
  destruct (loop_body_spec n t s Hwf) as (s'' & Hb' & _ & Hflags & _).
  rewrite Hb in Hb'. injection Hb' as <- _.
  rewrite Hflags.
  destruct (lookup_lt_is_Some_2 (map (fun r => is_last (snd r)) (results s)) k)
    as [r Hr].
  { rewrite length_map, (length_results n s Hwf).
    apply lookup_lt_Some in Hk. unfold done_flags in Hk. rewrite length_map in Hk.
    destruct Hwf as (_ & Hd & _). lia. }
  apply lookup_zip_with_Some. exists true, r. by repeat split.
Qed.

Lemma trace_sticky n (st : @EvalState R Env) trace t :
  (forall p s', trace !! p = Some s' ->
     exists s, (st :: trace) !! p = Some s /\ wf_eval n s /\ wf_eval n s' /\
       body (t + Z.of_nat p) s = Some (s', forallb id (done_flags s'))) ->
  forall q p s1 s2 k, p <= q ->
    (st :: trace) !! p = Some s1 -> (st :: trace) !! q = Some s2 ->
    done_flags s1 !! k = Some true -> done_flags s2 !! k = Some true.
Proof.
  intros Hsteps q. induction q as [|q IH]; intros p s1 s2 k Hpq Hp Hq Hk.
  - assert (p = 0) as -> by lia. congruence.
  - destruct (decide (p = S q)) as [->|Hne]; [congruence|].
    simpl in Hq. destruct (Hsteps q s2 Hq) as (s & Hs & Hws & _ & Hb).
    eapply loop_body_sticky; [exact Hws|exact Hb|].
    eapply (IH p s1 s); [lia|done|done|done].
Qed.

Lemma trace_timesteps n (st : @EvalState R Env) trace t :
  (forall p s', trace !! p = Some s' ->
     exists s, (st :: trace) !! p = Some s /\ wf_eval n s /\ wf_eval n s' /\
       body (t + Z.of_nat p) s = Some (s', forallb id (done_flags s'))) ->
  forall p s, (st :: trace) !! p = Some s ->
    ev_timesteps s
    = ev_timesteps st ++ map (fun k => of_Z (t + 2 + Z.of_nat k)) (seq 0 p).
Proof.
  intros Hsteps p. induction p as [|p IH]; intros s Hp.
  - simpl in Hp. injection Hp as <-. simpl. by rewrite app_nil_r.
  - simpl in Hp. destruct (Hsteps p s Hp) as (s0 & Hs0 & Hws & _ & Hb).
    destruct (loop_body_spec n (t + Z.of_nat p) s0 Hws) as (s'' & Hb' & _ & _ & Hts & _).
    rewrite Hb in Hb'. injection Hb' as <-.
    rewrite Hts, (IH s0 Hs0), seq_S, map_app, <- app_assoc. simpl.
    do 4 f_equal. lia.
Qed.

(** What an iteration accumulates for episode [k]: the reward and 1 when
    its done flag is still false after the step, nothing when the flag is
    true after the step, be it set before or by this very step. *)
Lemma loop_body_accumulates n t (s s' : @EvalState R Env) b k e ts r l :
  wf_eval n s -> body t s = Some (s', b) ->
  results s !! k = Some (e, ts) ->
  episode_return s !! k = Some r -> episode_length s !! k = Some l ->
  exists d d',
    done_flags s !! k = Some d /\
    done_flags s' !! k = Some d' /\ d' = orb d (is_last ts) /\
    episode_return s' !! k = Some (if d' then r else add r (reward ts)) /\
    episode_length s' !! k = Some (int32_add l (if d' then 0 else 1)).
Proof.
  intros Hwf Hb Hres Hr Hl.
  destruct (loop_body_spec n t s Hwf) as (s'' & Hb' & _ & Hflags & _ & Hret & Hlen).
  rewrite Hb in Hb'. injection Hb' as <- _.
  destruct (lookup_lt_is_Some_2 (done_flags s) k) as [d Hd].
  { unfold done_flags. rewrite length_map. destruct Hwf as (_ & -> & _ & _ & _ & _ & _ & _ & <- & _).
    by eapply lookup_lt_Some. }
  assert (Hd' : done_flags s' !! k = Some (orb d (is_last ts))).
  { rewrite Hflags. apply lookup_zip_with_Some. exists d, (is_last ts).
    split; [done|]. split; [done|]. by rewrite list_lookup_fmap, Hres. }
  exists d, (orb d (is_last ts)). split; [done|]. split; [done|]. split; [done|]. split.
  - rewrite Hret. apply lookup_zip_with_Some.
    exists r, (if orb d (is_last ts) then zero else reward ts). split.
    + destruct (orb d (is_last ts)); [by rewrite add_0_r|done].
    + split; [done|]. apply lookup_zip_with_Some.
      exists (orb d (is_last ts)), (reward ts). split; [done|]. split; [done|].
      by rewrite list_lookup_fmap, Hres.
  - rewrite Hlen. apply lookup_zip_with_Some.
    exists l, (if orb d (is_last ts) then 0%Z else 1%Z). split; [done|]. split; [done|].
    apply lookup_zip_with_Some.
    exists (orb d (is_last ts)), 1%Z. split; [done|]. split; [done|].
    apply lookup_replicate_2. by eapply lookup_lt_Some.
Qed.

(** With room for an iteration, a run makes at least one. *)
Lemma eval_loop_nonempty fuel t (st : @EvalState R Env) trace :
  loop fuel t st = Some trace -> 0 < fuel -> 0 < length trace.
Proof.
  intros Hloop Hfuel. destruct fuel as [|fuel]; [lia|]. simpl in Hloop.
  apply bind_Some in Hloop as ([st' d] & _ & Hloop). destruct d.
  - injection Hloop as <-. simpl. lia.
  - apply bind_Some in Hloop as (rest & _ & Hloop). injection Hloop as <-.
    simpl. lia.
Qed.

Lemma eval_run_nonempty max_ep_len (st0 : @EvalState R Env) trace :
  eval_run Env make_env env_reset env_step get_batch_action mode
    state_mean state_std scale act_dim num_eval_episodes max_ep_len target_rew
    = Some (st0, trace) ->
  0 < max_ep_len -> 0 < length trace.
Proof.
  unfold eval_run. intros Hrun.
  apply bind_Some in Hrun as (s & _ & Hrun).
  apply bind_Some in Hrun as (tr & Hloop & Hrun). injection Hrun as <- <-.
  by apply eval_loop_nonempty with (t := 0%Z) (st := s).
Qed.

(** C7. A run of the evaluator with at least one episode succeeds (with
    none it raises before the loop); the done flag of an episode, once
    true, is true in every later state of the run, each iteration setting
    it to the OR of its previous value and the terminal signal of the step;
    the loop ends with the first iteration after which all flags are true,
    and after [max_ep_len] iterations otherwise. *)
Theorem done_sticky_and_early_exit max_ep_len :
  mode <> noise -> 0 < num_eval_episodes ->
  exists st0 trace,
    eval_run Env make_env env_reset env_step get_batch_action mode
      state_mean state_std scale act_dim num_eval_episodes max_ep_len target_rew
      = Some (st0, trace) /\
    (forall p q s1 s2 k, p <= q ->
       (st0 :: trace) !! p = Some s1 -> (st0 :: trace) !! q = Some s2 ->
       done_flags s1 !! k = Some true -> done_flags s2 !! k = Some true) /\
    (forall p s s', (st0 :: trace) !! p = Some s -> trace !! p = Some s' ->
       done_flags s'
       = zip_with orb (done_flags s) (map (fun r => is_last (snd r)) (results s))) /\
    length trace <= max_ep_len /\
    (forall p s, trace !! p = Some s ->
       forallb id (done_flags s) = true -> length trace = p + 1) /\
    (length trace < max_ep_len ->
       exists s, last trace = Some s /\ forallb id (done_flags s) = true).
Proof.
  intros Hmode Hpos.
  destruct (eval_init_spec Hmode Hpos) as (st0 & Hinit & Hwf & _).
  destruct (eval_loop_steps num_eval_episodes max_ep_len 0 st0 Hwf)
    as (trace & Hloop & Hlen & Hsteps & Hstop & Hearly).
  exists st0, trace. unfold eval_run. rewrite Hinit, bind_Some_l, Hloop, bind_Some_l.
  split; [done|]. split; [|split; [|by repeat split]].
  - intros p q s1 s2 k. by apply (trace_sticky num_eval_episodes st0 trace 0 Hsteps q p).
  - intros p s s' Hs Hs'.
    destruct (Hsteps p s' Hs') as (s0 & Hs0 & Hws & _ & Hb).
    assert (s0 = s) as -> by congruence.
    destruct (loop_body_spec num_eval_episodes (0 + Z.of_nat p) s Hws)
      as (s'' & Hb' & _ & Hflags & _).
    rewrite Hb in Hb'. by injection Hb' as <-.
Qed.

(** C8. The timestep sequence is one sequence for all the episodes: it is
    [1] before the loop and [1, 2, ..., t+1] after [t] iterations; a run
    with at least one episode and [max_ep_len > 0] completes at least one
    iteration and at most [max_ep_len]. *)
Theorem timesteps_shared_sequence max_ep_len :
  mode <> noise -> 0 < num_eval_episodes ->
  exists st0 trace,
    eval_run Env make_env env_reset env_step get_batch_action mode
      state_mean state_std scale act_dim num_eval_episodes max_ep_len target_rew
      = Some (st0, trace) /\
    ev_timesteps st0 = [one] /\
    (forall t s, (st0 :: trace) !! t = Some s ->
       ev_timesteps s = map (fun k => of_Z (Z.of_nat k)) (seq 1 (t + 1))) /\
    length trace <= max_ep_len /\
    (0 < max_ep_len -> 0 < length trace).
Proof.
  intros Hmode Hpos.
  destruct (eval_init_spec Hmode Hpos) as (st0 & Hinit & Hwf & Hts0 & _).
  destruct (eval_loop_steps num_eval_episodes max_ep_len 0 st0 Hwf)
    as (trace & Hloop & Hlen & Hsteps & _).
  exists st0, trace. unfold eval_run. rewrite Hinit, bind_Some_l, Hloop, bind_Some_l.
  split; [done|]. split; [done|]. split; [|split; [done|]].
  - intros t s Hs.
    rewrite (trace_timesteps num_eval_episodes st0 trace 0 Hsteps t s Hs), Hts0.
    rewrite Nat.add_1_r. simpl. rewrite of_Z_1. f_equal.
    rewrite <- (fmap_S_seq 1), <- (fmap_S_seq 0), <- !list_fmap_compose.
    apply list_fmap_ext. intros i k _. simpl. f_equal. lia.
  - by apply (eval_loop_nonempty max_ep_len 0 st0).
Qed.

End EvalSpec.

(** *** The evaluator on the counting environments *)

(** C1. The step on which an episode ends is not accumulated: one episode
    that ends on its 3rd step with [max_ep_len = 5] is reported with
    length 2 and return 2 (of the 3 it was paid), the accumulators
    standing at 1, 2, 2 after the three iterations that run; next to an
    episode that never ends it stays at 2 through all five iterations. *)
Theorem terminal_step_not_accumulated :
  demo_fn_one = Some ([2%Q], [2%Z]) /\
  (fun '(st0, trace) =>
     (map done_flags trace, map episode_length trace, map episode_return trace))
    <$> demo_eval_one
  = Some ([[false]; [false]; [true]], [[1]; [2]; [2]]%Z, [[1]; [2]; [2]]%Q) /\
  (fun '(st0, trace) => (map done_flags trace, map episode_length trace))
    <$> demo_eval_two
  = Some ([[false; false]; [false; false]; [true; false]; [true; false];
           [true; false]],
          [[1; 1]; [2; 2]; [2; 3]; [2; 4]; [2; 5]]%Z) /\
  demo_fn_two = Some ([2; 5]%Q, [2; 5]%Z).
Proof. repeat split; reflexivity. Qed.

Lemma done_sticky_and_early_exit_witness :
  model_arity zero_model /\ normal <> noise /\ 0 < 1 /\
  exists st0 trace,
    demo_eval_one = Some (st0, trace) /\
    (forall p q s1 s2 k, p <= q ->
       (st0 :: trace) !! p = Some s1 -> (st0 :: trace) !! q = Some s2 ->
       done_flags s1 !! k = Some true -> done_flags s2 !! k = Some true) /\
    (forall p s s', (st0 :: trace) !! p = Some s -> trace !! p = Some s' ->
       done_flags s'
       = zip_with orb (done_flags s)
           (map (fun r => is_last (snd r))
              (env_steps CounterEnv counter_step zero_model [0%Q] [1%Q] 1 s))) /\
    length trace <= 5 /\
    (forall p s, trace !! p = Some s ->
       forallb id (done_flags s) = true -> length trace = p + 1) /\
    (length trace < 5 ->
       exists s, last trace = Some s /\ forallb id (done_flags s) = true).
Proof.
  split; [intros ? ? ? ? ?; apply length_map|]. split; [discriminate|].
  split; [lia|].
  apply (done_sticky_and_early_exit CounterEnv
           (fun _ => {| ends_at := Some 3; steps := 0 |}) counter_reset
           counter_step zero_model normal [0%Q] [1%Q] 1%Q 1 1 3%Q).
  - intros ? ? ? ? ?; apply length_map.
  - discriminate.
  - lia.
Defined.

Lemma timesteps_shared_sequence_witness :
  model_arity zero_model /\ normal <> noise /\ 0 < 2 /\
  exists st0 trace,
    demo_eval_two = Some (st0, trace) /\
    ev_timesteps st0 = [one] /\
    (forall t s, (st0 :: trace) !! t = Some s ->
       ev_timesteps s = map (fun k => of_Z (Z.of_nat k)) (seq 1 (t + 1))) /\
    length trace <= 5 /\
    (0 < 5 -> 0 < length trace).
Proof.
  split; [intros ? ? ? ? ?; apply length_map|]. split; [discriminate|].
  split; [lia|].
  apply (timesteps_shared_sequence CounterEnv demo_envs_two counter_reset
           counter_step zero_model normal [0%Q] [1%Q] 1%Q 1 2 3%Q).
  - intros ? ? ? ? ?; apply length_map.
  - discriminate.
  - lia.
Defined.

(** * Further properties *)

(** ** The selector: which trajectories, and where it stops *)

Section SelectionCut.
Context {R : Type} `{Scalar R}.

(** Positions of the ascending order carry ascending keys. *)
Lemma np_argsort_sorted (keys : list R) a b i j ki kj :
  a <= b ->
  np_argsort keys !! a = Some i -> np_argsort keys !! b = Some j ->
  keys !! i = Some ki -> keys !! j = Some kj ->
  leb ki kj = true.
Proof.
  intros Hab Ha Hb Hi Hj. unfold np_argsort in Ha, Hb.
  set (l := imap (fun i k => (i, k)) keys) in *.
  assert (Hpairs : forall p, p ∈ sort_by l -> keys !! (fst p) = Some (snd p)).
  { intros [i' k']. rewrite sort_by_perm. unfold l. simpl.
    rewrite list_elem_of_lookup. intros [c Hc].
    apply list_lookup_imap_Some in Hc as (x & Hx & Heq). by inversion Heq; subst. }
  rewrite list_lookup_fmap in Ha, Hb.
  destruct (sort_by l !! a) as [pa|] eqn:Epa; [|done].
  destruct (sort_by l !! b) as [pb|] eqn:Epb; [|done].
  simpl in Ha, Hb. injection Ha as Ha. injection Hb as Hb.
  assert (Hka : snd pa = ki).
  { pose proof (Hpairs pa (list_elem_of_lookup_2 _ _ _ Epa)) as E. congruence. }
  assert (Hkb : snd pb = kj).
  { pose proof (Hpairs pb (list_elem_of_lookup_2 _ _ _ Epb)) as E. congruence. }
  subst ki kj.
  destruct (decide (a = b)) as [->|Hne].
  { assert (pa = pb) as -> by congruence. apply (key_le_refl pb). }
  pose proof (sort_by_sorted l) as Hs.
  rewrite <- (take_drop (S a) (sort_by l)) in Hs.
  apply (StronglySorted_app_1_elem_of _ _ _ pa pb) in Hs; [done| |].
  - apply list_elem_of_lookup. exists a. by rewrite lookup_take_lt by lia.
  - apply list_elem_of_lookup. exists (b - S a). rewrite lookup_drop.
    rewrite <- Epb. f_equal. lia.
Qed.

Lemma np_argsort_NoDup (keys : list R) : NoDup (np_argsort keys).
Proof. rewrite np_argsort_perm. apply NoDup_seq. Qed.

(** The selector cuts the ascending order at some position [k']: it
    returns everything from [k'] on. *)
Lemma select_trajectories_cut (pct_traj : R) (trajectories : list Path) :
  trajectories <> [] ->
  let lens := traj_lens_of trajectories in
  let srt := np_argsort (traj_total_return_of trajectories) in
  let B := timestep_budget pct_traj (sum_list lens) in
  exists k',
    k' < length trajectories /\
    select_trajectories pct_traj trajectories
    = Some (drop k' srt, Z.of_nat (selected_timesteps lens (drop k' srt))) /\
    (k' = length trajectories - 1
     \/ (Z.of_nat (selected_timesteps lens (drop k' srt)) <= B)%Z) /\
    (k' = 0 \/ exists i, srt !! (k' - 1) = Some i /\
        ~ (Z.of_nat (selected_timesteps lens (drop k' srt))
           + Z.of_nat (default 0%nat (lens !! i)) <= B)%Z).
Proof.
  intros Hne lens srt B.
  unfold select_trajectories. fold lens srt B.
  assert (Hn : 0 < length trajectories) by (destruct trajectories; [done|simpl; lia]).
  assert (Hklen : length (traj_total_return_of trajectories) = length trajectories)
    by (unfold traj_total_return_of; by rewrite length_map).
  assert (Hllen : length lens = length trajectories)
    by (unfold lens, traj_lens_of; by rewrite length_map).
  assert (Hslen : length srt = length trajectories)
    by (unfold srt; by rewrite np_argsort_length).
  assert (Hval : forall i, i ∈ srt -> i < length lens).
  { intros i Hi. apply np_argsort_lt in Hi. lia. }
  destruct (lookup_lt_is_Some_2 srt (length trajectories - 1)) as [best Hbest]; [lia|].
  rewrite py_index_last by (intros E; rewrite E in Hslen; simpl in Hslen; lia).
  rewrite Hslen, Hbest, bind_Some_l.
  assert (Hbl : best < length lens) by (apply Hval; by eapply list_elem_of_lookup_2).
  destruct (lookup_lt_is_Some_2 lens best) as [lb Hlb]; [done|].
  rewrite Hlb, bind_Some_l.
  replace (Z.to_nat (Z.of_nat (length trajectories) - 2 + 1))
    with (length trajectories - 1) by lia.
  assert (Hdrop1 : drop (length trajectories - 1) srt = [best]).
  { rewrite (drop_S _ _ _ Hbest). rewrite drop_ge by lia. done. }
  destruct (select_loop_spec lens srt B (length trajectories - 1) (Z.of_nat lb) 1)
    as (k' & Hk' & Hrun & Hfit & Hstop).
  { lia. }
  { done. }
  { rewrite Hdrop1. unfold selected_timesteps. simpl. rewrite Hlb. simpl. f_equal. lia. }
  { lia. }
  rewrite Hrun, bind_Some_l.
  assert (Hcut : py_slice_start (length trajectories) (- Z.of_nat (length srt - k')) = k').
  { unfold py_slice_start.
    destruct (- Z.of_nat (length srt - k') <? 0)%Z eqn:E; [lia|].
    apply Z.ltb_ge in E. lia. }
  rewrite Hcut. exists k'. split; [lia|]. split; [done|]. by split.
Qed.

End SelectionCut.

(** X1. The selection is made of the best trajectories: it has no index
    twice, every index is in range, and every selected trajectory has a
    total return at least that of every trajectory left out. *)
Theorem selection_is_top_ranked :
  forall (R : Type) (HR : Scalar R) (pct_traj : R) (trajectories : list (@Path R))
         sel timesteps,
    select_trajectories pct_traj trajectories = Some (sel, timesteps) ->
    NoDup sel /\
    (forall i, i ∈ sel -> i < length trajectories) /\
    forall i j ri rj,
      i ∈ sel -> j ∉ sel ->
      traj_total_return_of trajectories !! i = Some ri ->
      traj_total_return_of trajectories !! j = Some rj ->
      leb rj ri = true.
Proof.
  intros R HR pct trajectories sel ts Hsel.
  assert (Hne : trajectories <> []).
  { intros ->. by vm_compute in Hsel. }
  destruct (select_trajectories_cut pct trajectories Hne) as (k' & Hk' & Hrun & _).
  rewrite Hsel in Hrun. injection Hrun as -> ->.
  set (keys := traj_total_return_of trajectories) in *.
  assert (Hklen : length keys = length trajectories)
    by (unfold keys, traj_total_return_of; by rewrite length_map).
  split; [|split].
  - pose proof (np_argsort_NoDup keys) as Hnd.
    rewrite <- (take_drop k' (np_argsort keys)) in Hnd.
    by apply NoDup_app in Hnd as (_ & _ & Hnd).
  - intros i Hi. apply list_elem_of_lookup in Hi as [a Ha]. rewrite lookup_drop in Ha.
    rewrite <- Hklen. apply np_argsort_lt. by eapply list_elem_of_lookup_2.
  - intros i j ri rj Hi Hj Hri Hrj.
    apply list_elem_of_lookup in Hi as [a Ha]. rewrite lookup_drop in Ha.
    assert (Hjin : j ∈ np_argsort keys).
    { rewrite np_argsort_perm. apply elem_of_seq. apply lookup_lt_Some in Hrj. lia. }
    apply list_elem_of_lookup in Hjin as [b Hb].
    assert (Hbk : b < k').
    { destruct (decide (b < k')); [done|]. exfalso. apply Hj.
      apply list_elem_of_lookup. exists (b - k'). rewrite lookup_drop.
      rewrite <- Hb. f_equal. lia. }
    eapply (np_argsort_sorted keys b (k' + a) j i); [lia|done|done|done|done].
Qed.

Lemma selection_is_top_ranked_witness :
  select_trajectories (1 # 2)%Q demo_trajectories = Some ([0], 5%Z) /\
  NoDup [0] /\
  (forall i, i ∈ [0] -> i < length demo_trajectories) /\
  forall i j ri rj,
    i ∈ [0] -> j ∉ [0] ->
    traj_total_return_of demo_trajectories !! i = Some ri ->
    traj_total_return_of demo_trajectories !! j = Some rj ->
    leb rj ri = true.
Proof.
  split; [reflexivity|].
  apply (selection_is_top_ranked Q Q_Scalar (1 # 2)%Q demo_trajectories [0] 5%Z).
  reflexivity.
Defined.

(** X2. The selector stops only when it has to: either every trajectory
    is selected, or the best trajectory left out (no trajectory left out
    has a greater return) would take the selection over the budget. *)
Theorem selection_is_maximal :
  forall (R : Type) (HR : Scalar R) (pct_traj : R) (trajectories : list (@Path R))
         sel timesteps,
    select_trajectories pct_traj trajectories = Some (sel, timesteps) ->
    timesteps = Z.of_nat (selected_timesteps (traj_lens_of trajectories) sel) /\
    (length sel = length trajectories \/
     exists next rn ln,
       (next ∉ sel) /\
       traj_total_return_of trajectories !! next = Some rn /\
       traj_lens_of trajectories !! next = Some ln /\
       (forall j rj, j ∉ sel ->
          traj_total_return_of trajectories !! j = Some rj -> leb rj rn = true) /\
       (timestep_budget pct_traj (sum_list (traj_lens_of trajectories))
        < timesteps + Z.of_nat ln)%Z).
Proof.
  intros R HR pct trajectories sel ts Hsel.
  assert (Hne : trajectories <> []).
  { intros ->. by vm_compute in Hsel. }
  destruct (select_trajectories_cut pct trajectories Hne) as (k' & Hk' & Hrun & _ & Hstop).
  rewrite Hsel in Hrun. injection Hrun as -> ->.
  set (keys := traj_total_return_of trajectories) in *.
  set (lens := traj_lens_of trajectories) in *.
  assert (Hklen : length keys = length trajectories)
    by (unfold keys, traj_total_return_of; by rewrite length_map).
  assert (Hllen : length lens = length trajectories)
    by (unfold lens, traj_lens_of; by rewrite length_map).
  split; [done|].
  destruct (decide (k' = 0)) as [->|Hk0].
  { left. by rewrite drop_0, np_argsort_length. }
  right. destruct Hstop as [?|(next & Hnext & Hover)]; [done|].
  assert (Hnl : next < length trajectories).
  { rewrite <- Hklen. apply np_argsort_lt. by eapply list_elem_of_lookup_2. }
  destruct (lookup_lt_is_Some_2 keys next) as [rn Hrn]; [lia|].
  destruct (lookup_lt_is_Some_2 lens next) as [ln Hln]; [lia|].
  exists next, rn, ln.
  assert (Hout : forall j b, np_argsort keys !! b = Some j ->
                   j ∉ drop k' (np_argsort keys) <-> b < k').
  { intros j b Hb. split.
    - intros Hj. destruct (decide (b < k')); [done|]. exfalso. apply Hj.
      apply list_elem_of_lookup. exists (b - k'). rewrite lookup_drop.
      rewrite <- Hb. f_equal. lia.
    - intros Hbk Hj. apply list_elem_of_lookup in Hj as [a Ha].
      rewrite lookup_drop in Ha.
      pose proof (np_argsort_NoDup keys) as Hnd.
      pose proof (NoDup_lookup _ _ _ _ Hnd Hb Ha). lia. }
  split; [apply (Hout next (k' - 1) Hnext); lia|].
  split; [done|]. split; [done|]. split.
  - intros j rj Hj Hrj.
    assert (Hjin : j ∈ np_argsort keys).
    { rewrite np_argsort_perm. apply elem_of_seq. apply lookup_lt_Some in Hrj. lia. }
    apply list_elem_of_lookup in Hjin as [b Hb].
    apply (Hout j b Hb) in Hj.
    eapply (np_argsort_sorted keys b (k' - 1) j next); [lia|done|done|done|done].
  - rewrite Hln in Hover. simpl in Hover. lia.
Qed.

Lemma selection_is_maximal_witness :
  select_trajectories (1 # 2)%Q demo_trajectories = Some ([0], 5%Z) /\
  5%Z = Z.of_nat (selected_timesteps (traj_lens_of demo_trajectories) [0]) /\
  (length [0] = length demo_trajectories \/
   exists next rn ln,
     (next ∉ [0]) /\
     traj_total_return_of demo_trajectories !! next = Some rn /\
     traj_lens_of demo_trajectories !! next = Some ln /\
     (forall j rj, j ∉ [0] ->
        traj_total_return_of demo_trajectories !! j = Some rj -> leb rj rn = true) /\
     (timestep_budget (1 # 2)%Q (sum_list (traj_lens_of demo_trajectories))
      < 5 + Z.of_nat ln)%Z).
Proof.
  split; [reflexivity|].
  apply (selection_is_maximal Q Q_Scalar (1 # 2)%Q demo_trajectories [0] 5%Z).
  reflexivity.
Defined.

(** ** The loader *)

Section Loader.
Context {R : Type} `{Scalar R}.

Lemma delayed_rewards_nil : delayed_rewards (R:=R) [] = None.
Proof. reflexivity. Qed.

Lemma discount_cumsum_nil gamma : discount_cumsum (R:=R) [] gamma = None.
Proof. reflexivity. Qed.

Lemma load_path_None mode (p : Path) : load_path mode p = None <-> rewards p = [].
Proof.
  split.
  - intros Hnone. destruct (rewards p) as [|x xs] eqn:Er; [done|]. exfalso.
    unfold load_path in Hnone. rewrite Er in Hnone.
    assert (Hr : exists r, (match mode with
                            | delayed => delayed_rewards (x :: xs)
                            | _ => Some (x :: xs)
                            end) = Some r /\ r <> []).
    { destruct mode; try (eexists; split; [reflexivity|done]).
      destruct (x :: xs) as [|xl ys _] eqn:E using rev_ind; [done|].
      rewrite delayed_rewards_spec. eexists. split; [done|].
      by destruct (replicate (length ys) zero). }
    destruct Hr as (r & Hr & Hrne). rewrite Hr, bind_Some_l in Hnone.
    destruct (discount_cumsum_spec r one Hrne) as (dc & Hdc & _).
    by rewrite Hdc in Hnone.
  - intros Er. unfold load_path. rewrite Er.
    destruct mode; by rewrite ?delayed_rewards_nil, ?bind_Some_l, ?discount_cumsum_nil.
Qed.

End Loader.

(** X3. The loader raises on a trajectory exactly when it has no step
    (its reward array is empty), in every mode; so a dataset loads unless
    one of its trajectories is empty. *)
Theorem load_fails_on_empty_trajectory_only :
  forall (R : Type) (HR : Scalar R) (mode : Mode),
    (forall p : @Path R, load_path mode p = None <-> rewards p = []) /\
    (forall raw : list (@Path R),
       load_trajectories mode raw = None <-> exists p, p ∈ raw /\ rewards p = []).
Proof.
  intros R HR mode. split; [apply load_path_None|].
  intros raw. unfold load_trajectories. rewrite mapM_None, Exists_exists.
  split; intros (p & Hin & Hp); exists p; (split; [done|]);
    by apply (load_path_None mode p).
Qed.

(** X4. What loading changes in a record: nothing but the rewards (and in a
    mode other than delayed not even those), the terminal flags, taken from
    ['terminals'] when the record has that key and from ['dones']
    otherwise, and the return-to-go, which gets one entry per reward. *)
Theorem load_keeps_the_data :
  forall (R : Type) (HR : Scalar R) (mode : Mode) (p p' : @Path R),
    load_path mode p = Some p' ->
    observations p' = observations p /\
    actions p' = actions p /\
    length (rewards p') = length (rewards p) /\
    (mode <> delayed -> rewards p' = rewards p) /\
    dones p' = match terminals p with Some t => Some t | None => dones p end /\
    exists g, rtg p' = Some g /\ length g = length (rewards p') /\
              discount_cumsum (rewards p') one = Some g.
Proof.
  intros R HR mode p p' Hload. unfold load_path in Hload.
  destruct (match mode with
            | delayed => delayed_rewards (rewards p)
            | _ => Some (rewards p)
            end) as [r|] eqn:Er; [|done].
  rewrite bind_Some_l in Hload.
  destruct (discount_cumsum r one) as [g|] eqn:Eg; [|done].
  rewrite bind_Some_l in Hload. injection Hload as <-. simpl.
  split; [done|]. split; [done|]. split.
  { destruct mode; try (by injection Er as <-). by apply delayed_rewards_length. }
  split.
  { intros Hm. destruct mode; try done; by injection Er as <-. }
  split; [done|]. exists g. split; [done|]. split; [|done].
  by apply discount_cumsum_length in Eg as [_ ?].
Qed.

Lemma load_keeps_the_data_witness :
  load_path normal raw_A = Some (default raw_A (head demo_trajectories)) /\
  exists g, rtg (default raw_A (head demo_trajectories)) = Some g /\
            length g = 5 /\ g = [10; 8; 6; 4; 2]%Q.
Proof.
  split; [reflexivity|].
  destruct (load_keeps_the_data Q Q_Scalar normal raw_A
              (default raw_A (head demo_trajectories)) eq_refl)
    as (_ & _ & _ & _ & _ & g & Hg & Hl & _).
  exists g. split; [exact Hg|]. split; [exact Hl|].
  vm_compute in Hg. by injection Hg as <-.
Defined.

(** ** Delayed rewards

    The statements of this section use one more law of the arithmetic,
    [0 + x = x], which holds of floats (up to the sign of zero). *)

Section DelayedMode.
Context {R : Type} `{Scalar R}.
Hypothesis add_0_l : forall x : R, add zero x = x.

Lemma np_sum_zeros k : np_sum (replicate k (zero : R)) = zero.
Proof.
  unfold np_sum. induction k as [|k IH]; [done|].
  simpl. by rewrite add_0_r.
Qed.

Lemma np_sum_delayed k (s : R) : np_sum (replicate k zero ++ [s]) = s.
Proof.
  unfold np_sum. rewrite foldl_app. simpl.
  fold (np_sum (replicate k (zero : R))). by rewrite np_sum_zeros, add_0_l.
Qed.

(** Return-to-go of a series that pays [s] on its last step only. *)
Lemma discount_cumsum_delayed k (s : R) :
  discount_cumsum (replicate k zero ++ [s]) one = Some (replicate (k + 1) s).
Proof.
  set (x := replicate k zero ++ [s]).
  assert (Hlen : length x = k + 1)
    by (unfold x; rewrite length_app, length_replicate; done).
  destruct (discount_cumsum_spec x one) as (dc & Hdc & Hl & Hlast & Hrec).
  { unfold x. by destruct (replicate k zero). }
  rewrite Hdc. f_equal.
  assert (Hall : forall d, d <= k -> dc !! (k - d) = Some s).
  { induction d as [|d IH]; intros Hd.
    - rewrite Nat.sub_0_r. rewrite Hlen in Hlast.
      replace (k + 1 - 1) with k in Hlast by lia. rewrite Hlast.
      unfold x. apply list_lookup_middle. by rewrite length_replicate.
    - destruct (Hrec (k - S d)) as (xt & nxt & Hxt & Hnxt & Ht); [lia|].
      replace (k - S d + 1) with (k - d) in Hnxt by lia.
      rewrite IH in Hnxt by lia. injection Hnxt as <-.
      unfold x in Hxt. rewrite lookup_app_l in Hxt by (rewrite length_replicate; lia).
      apply lookup_replicate in Hxt as [-> _].
      by rewrite Ht, mul_1_l, add_0_l. }
  apply list_eq. intros i.
  destruct (decide (i < k + 1)) as [Hi|Hi].
  - rewrite lookup_replicate_2 by done.
    replace i with (k - (k - i)) by lia. apply Hall. lia.
  - rewrite !lookup_ge_None_2; [done| |]; rewrite ?length_replicate; lia.
Qed.

Lemma load_path_delayed_rtg (p : Path) :
  rewards p <> [] ->
  exists p', load_path delayed p = Some p' /\
    rtg p' = Some (replicate (length (rewards p)) (np_sum (rewards p))) /\
    np_sum (rewards p') = np_sum (rewards p).
Proof.
  intros Hne. unfold load_path.
  destruct (rewards p) as [|xl xs _] eqn:Er using rev_ind; [done|].
  rewrite delayed_rewards_spec, bind_Some_l, discount_cumsum_delayed, bind_Some_l.
  eexists. split; [done|]. simpl.
  rewrite length_app, np_sum_delayed. done.
Qed.

Lemma load_path_total_return mode (p p' : Path) :
  load_path mode p = Some p' -> np_sum (rewards p') = np_sum (rewards p).
Proof.
  intros Hload. destruct mode.
  - unfold load_path in Hload. rewrite bind_Some_l in Hload.
    destruct (discount_cumsum (rewards p) one); [|done].
    rewrite bind_Some_l in Hload. by injection Hload as <-.
  - destruct (load_path_delayed_rtg p) as (p'' & Hp'' & _ & Hsum).
    { intros E. apply (load_path_None delayed p) in E. congruence. }
    congruence.
  - unfold load_path in Hload. rewrite bind_Some_l in Hload.
    destruct (discount_cumsum (rewards p) one); [|done].
    rewrite bind_Some_l in Hload. by injection Hload as <-.
Qed.

Lemma select_trajectories_ext (pct_traj : R) (t1 t2 : list Path) :
  traj_lens_of t1 = traj_lens_of t2 ->
  traj_total_return_of t1 = traj_total_return_of t2 ->
  select_trajectories pct_traj t1 = select_trajectories pct_traj t2.
Proof.
  intros Hl Hr. unfold select_trajectories.
  assert (Hn : length t1 = length t2).
  { unfold traj_lens_of in Hl. apply (f_equal length) in Hl.
    by rewrite !length_map in Hl. }
  by rewrite Hl, Hr, Hn.
Qed.

(** X5. In delayed mode the loaded return-to-go is the same at every step
    of a trajectory: the sum of its rewards; and the total of the rewritten
    rewards is still that sum. *)
Theorem delayed_rtg_is_total_return (p : Path) :
  rewards p <> [] ->
  exists p', load_path delayed p = Some p' /\
    rtg p' = Some (replicate (length (rewards p)) (np_sum (rewards p))) /\
    np_sum (rewards p') = np_sum (rewards p).
Proof. apply load_path_delayed_rtg. Qed.

(** X6. Delaying the rewards changes neither the lengths nor the total
    returns of the trajectories, hence not the selection: a dataset loaded
    in delayed mode and the same dataset loaded in any other mode select
    the same indices. *)
Theorem selection_same_in_delayed_mode (pct_traj : R) mode (raw t1 t2 : list Path) :
  load_trajectories mode raw = Some t1 ->
  load_trajectories delayed raw = Some t2 ->
  traj_lens_of t1 = traj_lens_of t2 /\
  traj_total_return_of t1 = traj_total_return_of t2 /\
  select_trajectories pct_traj t1 = select_trajectories pct_traj t2.
Proof.
  intros H1 H2. unfold load_trajectories in H1, H2.
  apply mapM_Some in H1, H2.
  assert (Hl : traj_lens_of t1 = traj_lens_of t2 /\
               traj_total_return_of t1 = traj_total_return_of t2).
  { clear pct_traj. revert t2 H2.
    induction H1 as [|p p1 raw t1 Hp1 _ IH]; intros t2 H2; inversion H2 as [|? p2 ? t2' Hp2 H2']; subst.
    - done.
    - destruct (IH t2' H2') as [IHl IHr]. unfold traj_lens_of, traj_total_return_of in *.
      simpl. rewrite IHl, IHr.
      pose proof (load_path_total_return _ _ _ Hp1) as E1.
      pose proof (load_path_total_return _ _ _ Hp2) as E2.
      assert (Ho1 : observations p1 = observations p).
      { unfold load_path in Hp1. destruct (match mode with delayed => _ | _ => _ end); [|done].
        rewrite bind_Some_l in Hp1. destruct (discount_cumsum _ _); [|done].
        rewrite bind_Some_l in Hp1. by injection Hp1 as <-. }
      assert (Ho2 : observations p2 = observations p).
      { unfold load_path in Hp2. destruct (delayed_rewards _); [|done].
        rewrite bind_Some_l in Hp2. destruct (discount_cumsum _ _); [|done].
        rewrite bind_Some_l in Hp2. by injection Hp2 as <-. }
      by rewrite Ho1, Ho2, E1, E2. }
  destruct Hl as [Hl Hr]. split; [done|]. split; [done|].
  by apply select_trajectories_ext.
Qed.

End DelayedMode.

Ltac q_add_0_l :=
  intros [? ?]; unfold add, zero; simpl; unfold Qplus; simpl; by rewrite Z.mul_1_r.

Lemma delayed_rtg_is_total_return_witness :
  (forall x : Q, add zero x = x) /\ rewards raw_A <> [] /\
  exists p', load_path delayed raw_A = Some p' /\
    rtg p' = Some (replicate (length (rewards raw_A)) (np_sum (rewards raw_A))) /\
    np_sum (rewards p') = np_sum (rewards raw_A).
Proof.
  split; [q_add_0_l|]. split; [discriminate|].
  apply (@delayed_rtg_is_total_return Q Q_Scalar); [q_add_0_l|discriminate].
Defined.

Lemma selection_same_in_delayed_mode_witness :
  (forall x : Q, add zero x = x) /\
  load_trajectories normal [raw_A; raw_B] = Some demo_trajectories /\
  load_trajectories delayed [raw_A; raw_B]
  = Some (default [] (load_trajectories delayed [raw_A; raw_B])) /\
  traj_lens_of demo_trajectories
  = traj_lens_of (default [] (load_trajectories delayed [raw_A; raw_B])) /\
  traj_total_return_of demo_trajectories
  = traj_total_return_of (default [] (load_trajectories delayed [raw_A; raw_B])) /\
  select_trajectories (1 # 2)%Q demo_trajectories
  = select_trajectories (1 # 2)%Q
      (default [] (load_trajectories delayed [raw_A; raw_B])).
Proof.
  split; [q_add_0_l|]. split; [reflexivity|]. split; [reflexivity|].
  apply (@selection_same_in_delayed_mode Q Q_Scalar) with (mode := normal)
                                                          (raw := [raw_A; raw_B]);
    [q_add_0_l|reflexivity|reflexivity].
Defined.

(** ** From the dataset file to a batch *)

(** X7. Sampling cannot fail on a loaded, well-shaped dataset.  Take a
    dataset file in which every record has one row per step in each of its
    arrays, its terminal flags under ['terminals'] or ['dones'], one flag
    per step, observation rows of [state_dim] entries, action rows of
    [act_dim] entries and fewer than 2^31 steps, and statistics
    [state_mean] and [state_std] of [state_dim] entries.  Once the loader
    and the selection have returned, [get_batch] returns a batch, for
    every batch size and window length, and the batch has [batch_size]
    rows of [max_len] slots. *)
Theorem get_batch_succeeds_on_loaded_data :
  forall (R : Type) (HR : Scalar R) (mode : Mode) (pct_traj : R)
         (raw trajectories : list (@Path R)) (sel : list nat) (timesteps : Z)
         (state_mean state_std : list R) (scale : R)
         (state_dim act_dim : nat) (np_rng py_rng : nat -> nat)
         (batch_size max_len : nat),
    Forall (rectangular state_dim act_dim) raw ->
    length state_mean = state_dim -> length state_std = state_dim ->
    load_trajectories mode raw = Some trajectories ->
    select_trajectories pct_traj trajectories = Some (sel, timesteps) ->
    exists b,
      get_batch trajectories sel (length sel) state_mean state_std scale
        state_dim act_dim np_rng py_rng batch_size max_len = Some b /\
      shape2 (b_s b) batch_size max_len /\ shape2 (b_mask b) batch_size max_len.
Proof.
  intros R HR mode pct raw trajs sel ts mean std scale sd ad np_rng py_rng bs ml
         Hrect Hmean Hstd Eload Hsel.
  pose proof Eload as Hf2. apply mapM_Some in Hf2.
  assert (Hwf : Forall (wf_path sd ad) trajs).
  { apply Forall_lookup. intros i p' Hi.
    destruct (Forall2_lookup_r _ _ _ _ _ Hf2 Hi) as (p & Hp & Hload).
    eapply Forall_lookup_1 in Hrect; [|exact Hp].
    destruct Hrect as (Ho & Ha & (d & Hd & Hdl) & Hsd & Had & H31).
    by eapply (load_path_wf mode sd ad p p' d). }
  pose proof (select_trajectories_wf pct trajs _ _ Hsel) as Hwsel.
  destruct (get_batch_cells trajs _ _ mean std scale sd ad np_rng py_rng
              Hwsel Hwf Hmean Hstd bs ml) as (b & Hb & (Hs & _ & _ & _ & _ & _ & Hm) & _).
  exists b. split; [exact Hb|]. by split.
Qed.

Lemma get_batch_succeeds_on_loaded_data_witness :
  Forall (rectangular 1 1) [raw_A; raw_B] /\
  length demo_state_mean = 1 /\ length demo_state_std = 1 /\
  load_trajectories delayed [raw_A; raw_B]
  = Some (default [] (load_trajectories delayed [raw_A; raw_B])) /\
  select_trajectories (1 # 2)%Q (default [] (load_trajectories delayed [raw_A; raw_B]))
  = Some ([0], 5%Z) /\
  exists b,
    get_batch (default [] (load_trajectories delayed [raw_A; raw_B])) [0] 1
      demo_state_mean demo_state_std 1000%Q
      1 1 demo_np_rng demo_py_rng 4 3 = Some b /\
    shape2 (b_s b) 4 3 /\ shape2 (b_mask b) 4 3.
Proof.
  split; [repeat constructor; vm_compute; try lia; try (eexists; split; reflexivity)|].
  split; [reflexivity|]. split; [reflexivity|].
  split; [reflexivity|]. split; [reflexivity|].
  apply (get_batch_succeeds_on_loaded_data Q Q_Scalar delayed (1 # 2)%Q
           [raw_A; raw_B] (default [] (load_trajectories delayed [raw_A; raw_B]))
           [0] 5%Z demo_state_mean demo_state_std 1000%Q 1 1
           demo_np_rng demo_py_rng 4 3).
  - repeat constructor; vm_compute; try lia; try (eexists; split; reflexivity).
  - reflexivity.
  - reflexivity.
  - reflexivity.
  - reflexivity.
Defined.

(** ** When the sampler raises *)

Section BatchErrors.
Context {R : Type} `{Scalar R}.

Lemma fill_row_needs_keys scale state_dim act_dim max_len (traj : Path) ts sl row :
  fill_row scale state_dim act_dim max_len traj ts sl = Some row ->
  is_Some (dones traj) /\ is_Some (rtg traj).
Proof.
  unfold fill_row. intros Hrow.
  repeat (apply bind_Some in Hrow as (? & ? & Hrow)).
  split; by eexists.
Qed.

Lemma get_batch_needs
    (trajectories : list Path) (sorted_return_inds : list nat) (num_trajectories : nat)
    (state_mean state_std : list R) (scale : R) (state_dim act_dim : nat)
    (np_rng py_rng : nat -> nat) (batch_size max_len : nat) b :
  get_batch trajectories sorted_return_inds num_trajectories state_mean state_std
    scale state_dim act_dim np_rng py_rng batch_size max_len = Some b ->
  (batch_size = 0 \/ 0 < num_trajectories) /\
  forall i, i < batch_size ->
    exists traj,
      drawn_traj trajectories sorted_return_inds num_trajectories np_rng i = Some traj /\
      rewards traj <> [] /\ is_Some (dones traj) /\ is_Some (rtg traj).
Proof.
  unfold get_batch. intros Hb.
  apply bind_Some in Hb as (idxs & Hidxs & Hb).
  apply bind_Some in Hb as (srcs & Hsrcs & Hb).
  apply bind_Some in Hb as (starts & Hstarts & Hb).
  apply bind_Some in Hb as (rows & Hrows & _).
  unfold np_random_choice in Hidxs.
  destruct (decide (num_trajectories = 0 /\ batch_size <> 0)) as [|Hn]; [done|].
  injection Hidxs as <-.
  split; [lia|].
  unfold batch_sources_of in Hsrcs. apply mapM_Some in Hsrcs.
  unfold start_indices_of in Hstarts. apply mapM_Some in Hstarts.
  apply mapM_Some in Hrows.
  pose proof (Forall2_length _ _ _ Hsrcs) as Hl1.
  pose proof (Forall2_length _ _ _ Hstarts) as Hl2.
  rewrite length_map, length_seq in Hl1.
  rewrite length_imap, length_map in Hl2.
  intros i Hi.
  destruct (lookup_lt_is_Some_2 srcs i) as [traj Ht]; [lia|].
  destruct (lookup_lt_is_Some_2 starts i) as [st Hst]; [lia|].
  exists traj. split; [|split].
  - destruct (Forall2_lookup_r _ _ _ _ _ Hsrcs Ht) as (idx & Hidx & Hf).
    rewrite list_lookup_fmap, lookup_seq_lt in Hidx by done.
    simpl in Hidx. injection Hidx as <-. exact Hf.
  - destruct (Forall2_lookup_r _ _ _ _ _ Hstarts Hst) as ([k L] & Hk & Hr).
    apply list_lookup_imap_Some in Hk as (L' & HL' & Heq).
    injection Heq as -> ->.
    rewrite list_lookup_fmap, Ht in HL'. simpl in HL'. injection HL' as <-.
    unfold randint in Hr.
    destruct (Z.of_nat (length (rewards traj)) - 1 <? 0)%Z eqn:E; [done|].
    apply Z.ltb_ge in E. intros Hnil. rewrite Hnil in E. simpl in E. lia.
  - set (ends := end_indices_of max_len starts
                   (map (fun traj => length (rewards traj)) srcs)) in *.
    assert (Hle : length ends = batch_size).
    { unfold ends, end_indices_of. rewrite length_zip_with, length_map. lia. }
    destruct (lookup_lt_is_Some_2 (zip (zip srcs (zip_with np_arange starts ends))
                (zip_with (fun start_idx end_idx => (end_idx - start_idx)%Z) starts ends)) i)
      as [[[traj' ts] sl] Hz].
    { rewrite !length_zip_with. lia. }
    destruct (Forall2_lookup_l _ _ _ _ _ Hrows Hz) as (row & _ & Hrow).
    apply lookup_zip_with_Some in Hz as (pr & sl' & Heq & Hpr & _).
    apply lookup_zip_with_Some in Hpr as (traj'' & ts' & -> & Ht'' & _).
    injection Heq as -> -> ->.
    assert (traj'' = traj) as -> by congruence.
    by eapply fill_row_needs_keys.
Qed.

End BatchErrors.

(** X8. What the sampler cannot do without: it returns a batch only if
    there is something to choose from and, for every row, the trajectory
    drawn for it exists, has at least one step and has its ['dones'] and
    ['rtg'] keys; a dataset with neither ['terminals'] nor ['dones'] makes
    it raise. *)
Theorem get_batch_requirements :
  forall (R : Type) (HR : Scalar R)
    (trajectories : list (@Path R)) (sorted_return_inds : list nat)
    (num_trajectories : nat) (state_mean state_std : list R) (scale : R)
    (state_dim act_dim : nat) (np_rng py_rng : nat -> nat)
    (batch_size max_len : nat),
  (forall b,
     get_batch trajectories sorted_return_inds num_trajectories state_mean state_std
       scale state_dim act_dim np_rng py_rng batch_size max_len = Some b ->
     (batch_size = 0 \/ 0 < num_trajectories) /\
     forall i, i < batch_size ->
       exists traj,
         drawn_traj trajectories sorted_return_inds num_trajectories np_rng i
           = Some traj /\
         rewards traj <> [] /\ is_Some (dones traj) /\ is_Some (rtg traj)) /\
  (0 < batch_size ->
   Forall (fun p => dones p = None) trajectories ->
   get_batch trajectories sorted_return_inds num_trajectories state_mean state_std
     scale state_dim act_dim np_rng py_rng batch_size max_len = None).
Proof.
  intros. split; [intros b Hb; by eapply get_batch_needs|].
  intros Hbs Hnone.
  destruct (get_batch _ _ _ _ _ _ _ _ _ _ _ _) as [b|] eqn:Hb; [|done].
  exfalso. apply get_batch_needs in Hb as [_ Hrows].
  destruct (Hrows 0 Hbs) as (traj & Hd & _ & [d Hdones] & _).
  unfold drawn_traj in Hd. apply bind_Some in Hd as (j & _ & Hj).
  eapply Forall_lookup_1 in Hnone; [|exact Hj]. simpl in Hnone. congruence.
Qed.

Lemma get_batch_requirements_witness :
  0 < 2 /\ Forall (fun p : @Path Q => dones p = None) [raw_A; raw_B] /\
  get_batch [raw_A; raw_B] [1; 0] 2 demo_state_mean demo_state_std 1000%Q 1 1
    demo_np_rng demo_py_rng 2 3 = None.
Proof.
  split; [lia|]. split; [repeat constructor|].
  apply (proj2 (get_batch_requirements Q Q_Scalar [raw_A; raw_B] [1; 0] 2
                  demo_state_mean demo_state_std 1000%Q 1 1
                  demo_np_rng demo_py_rng 2 3)).
  - lia.
  - repeat constructor.
Defined.

(** ** What a batch holds *)

Section BatchContent.
Context {R : Type} `{Scalar R}.
Variable trajectories : list (@Path R).
Variable sorted_return_inds : list nat.
Variable num_trajectories : nat.
Variables state_mean state_std : list R.
Variable scale : R.
Variables state_dim act_dim : nat.
Variable np_rng : nat -> nat.
Variable py_rng : nat -> nat.

Hypothesis Hsel : wf_selection trajectories sorted_return_inds num_trajectories.
Hypothesis Htraj : Forall (wf_path state_dim act_dim) trajectories.
Hypothesis Hmean : length state_mean = state_dim.
Hypothesis Hstd : length state_std = state_dim.

(** X9. A valid slot of a batch holds one step [t] of the trajectory drawn
    for its row, the same step in every array: the observation normalised
    with the dataset statistics, the done flag as 0 or 1 and the
    return-to-go divided by [scale]; a padded slot holds reward 0 and
    return-to-go 0. *)
Theorem batch_slots_hold_steps batch_size max_len :
  exists b,
    get_batch trajectories sorted_return_inds num_trajectories
      state_mean state_std scale state_dim act_dim np_rng py_rng
      batch_size max_len = Some b /\
    forall i j, i < batch_size -> j < max_len ->
      (cell (b_mask b) i j = Some false /\
       cell (b_r b) i j = Some [zero] /\
       cell (b_rtg b) i j = Some [zero])
      \/
      (cell (b_mask b) i j = Some true /\
       exists traj t o a r (d : bool) g,
         drawn_traj trajectories sorted_return_inds num_trajectories np_rng i
           = Some traj /\
         observations traj !! t = Some o /\ actions traj !! t = Some a /\
         rewards traj !! t = Some r /\
         (dones traj ≫= fun l : list bool => l !! t) = Some d /\
         (rtg traj ≫= fun l : list R => l !! t) = Some g /\
         cell (b_s b) i j
           = Some (zip_with div (zip_with sub o state_mean) state_std) /\
         cell (b_a b) i j = Some a /\
         cell (b_r b) i j = Some [r] /\
         cell (b_d b) i j = Some [if d then one else zero] /\
         cell (b_rtg b) i j = Some [div g scale]).
Proof.
  destruct (get_batch_cells trajectories sorted_return_inds num_trajectories
              state_mean state_std scale state_dim act_dim np_rng py_rng
              Hsel Htraj Hmean Hstd batch_size max_len) as (b & Hb & _ & Hrows).
  exists b. split; [done|]. intros i j Hi Hj.
  destruct (Hrows i Hi) as (traj & d & g & Hdrawn & Hw & Hd & Hg & _ & Hpad & Hwin).
  simpl in Hpad, Hwin.
  set (w := window_len max_len (length (rewards traj)) (drawn_start py_rng i traj)) in *.
  destruct (decide (j < max_len - w)) as [Hlt|Hge].
  - left. destruct (Hpad j Hlt) as (Hm & _ & _ & Hr & _ & Hrtg & _). done.
  - right.
    destruct (Hwin j) as (Ht & Hm & Hs & Ha & Hr & Hdd & Hgg & _); [lia|].
    set (t := drawn_start py_rng i traj + (j - (max_len - w))) in *.
    destruct Hw as (_ & _ & Hol & Hal & (d' & Hd' & Hdl) & (g' & Hg' & Hgl) & _).
    assert (d' = d) as -> by congruence. assert (g' = g) as -> by congruence.
    destruct (lookup_lt_is_Some_2 (observations traj) t) as [o Ho]; [lia|].
    destruct (lookup_lt_is_Some_2 (actions traj) t) as [a Hac]; [lia|].
    destruct (lookup_lt_is_Some_2 (rewards traj) t) as [r Hre]; [lia|].
    destruct (lookup_lt_is_Some_2 d t) as [dt Hdt]; [lia|].
    destruct (lookup_lt_is_Some_2 g t) as [gt Hgt]; [lia|].
    split; [done|]. exists traj, t, o, a, r, dt, gt.
    rewrite Hd, Hg, Hs, Ha, Hr, Hdd, Hgg, Ho, Hac, Hre, Hdt, Hgt. by repeat split.
Qed.

(** X10. Windows are right-aligned and contiguous: in every row the valid
    slots are the last ones, the last slot is always valid, and the
    timesteps of neighbouring valid slots differ by one. *)
Theorem windows_right_aligned batch_size max_len :
  exists b,
    get_batch trajectories sorted_return_inds num_trajectories
      state_mean state_std scale state_dim act_dim np_rng py_rng
      batch_size max_len = Some b /\
    forall i, i < batch_size ->
      exists pad,
        (0 < max_len -> pad < max_len) /\
        (forall j, j < max_len -> cell (b_mask b) i j = Some (bool_decide (pad <= j))) /\
        (0 < max_len -> cell (b_mask b) i (max_len - 1) = Some true) /\
        (forall j, pad <= j -> j + 1 < max_len ->
           exists ts, cell (b_timesteps b) i j = Some ts /\
                      cell (b_timesteps b) i (j + 1) = Some (ts + 1)%Z).
Proof.
  destruct (get_batch_cells trajectories sorted_return_inds num_trajectories
              state_mean state_std scale state_dim act_dim np_rng py_rng
              Hsel Htraj Hmean Hstd batch_size max_len) as (b & Hb & _ & Hrows).
  exists b. split; [done|]. intros i Hi.
  destruct (Hrows i Hi) as (traj & d & g & _ & Hw & _ & _ & _ & Hpad & Hwin).
  simpl in Hpad, Hwin.
  set (start := drawn_start py_rng i traj) in *.
  set (w := window_len max_len (length (rewards traj)) start) in *.
  assert (Hlt : start < length (rewards traj)).
  { apply Nat.mod_upper_bound. destruct Hw. lia. }
  destruct (window_len_bounds max_len _ _ Hlt) as (Hw1 & _ & Hw3 & _). fold w in Hw1, Hw3.
  exists (max_len - w). split; [lia|]. split; [|split].
  - intros j Hj. destruct (decide (j < max_len - w)) as [Hp|Hp].
    + destruct (Hpad j Hp) as (Hm & _). rewrite Hm. by rewrite bool_decide_eq_false_2 by lia.
    + destruct (Hwin j) as (_ & Hm & _); [lia|].
      rewrite Hm. by rewrite bool_decide_eq_true_2 by lia.
  - intros Hml. destruct (Hwin (max_len - 1)) as (_ & Hm & _); [lia|]. done.
  - intros j Hp Hj.
    destruct (Hwin j) as (_ & _ & _ & _ & _ & _ & _ & Hts); [lia|].
    destruct (Hwin (j + 1)) as (_ & _ & _ & _ & _ & _ & _ & Hts'); [lia|].
    eexists. split; [exact Hts|]. rewrite Hts'. f_equal. lia.
Qed.

End BatchContent.

Lemma batch_slots_hold_steps_witness :
  wf_selection demo_trajectories demo_sorted_return_inds 2 /\
  Forall (wf_path 1 1) demo_trajectories /\
  length demo_state_mean = 1 /\ length demo_state_std = 1 /\
  exists b,
    demo_get_batch 2 3 = Some b /\
    forall i j, i < 2 -> j < 3 ->
      (cell (b_mask b) i j = Some false /\
       cell (b_r b) i j = Some [zero] /\
       cell (b_rtg b) i j = Some [zero])
      \/
      (cell (b_mask b) i j = Some true /\
       exists traj t o a r (d : bool) g,
         drawn_traj demo_trajectories demo_sorted_return_inds 2 demo_np_rng i
           = Some traj /\
         observations traj !! t = Some o /\ actions traj !! t = Some a /\
         rewards traj !! t = Some r /\
         (dones traj ≫= fun l : list bool => l !! t) = Some d /\
         (rtg traj ≫= fun l : list Q => l !! t) = Some g /\
         cell (b_s b) i j
           = Some (zip_with div (zip_with sub o demo_state_mean) demo_state_std) /\
         cell (b_a b) i j = Some a /\
         cell (b_r b) i j = Some [r] /\
         cell (b_d b) i j = Some [if d then one else zero] /\
         cell (b_rtg b) i j = Some [div g 1000%Q]).
Proof.
  split; [demo_selection|]. split; [demo_paths|].
  split; [reflexivity|]. split; [reflexivity|].
  apply (batch_slots_hold_steps demo_trajectories demo_sorted_return_inds 2
           demo_state_mean demo_state_std 1000%Q 1 1 demo_np_rng demo_py_rng);
    [demo_selection|demo_paths|reflexivity|reflexivity].
Defined.

Lemma windows_right_aligned_witness :
  wf_selection demo_trajectories demo_sorted_return_inds 2 /\
  Forall (wf_path 1 1) demo_trajectories /\
  length demo_state_mean = 1 /\ length demo_state_std = 1 /\
  exists b,
    demo_get_batch 2 3 = Some b /\
    forall i, i < 2 ->
      exists pad,
        (0 < 3 -> pad < 3) /\
        (forall j, j < 3 -> cell (b_mask b) i j = Some (bool_decide (pad <= j))) /\
        (0 < 3 -> cell (b_mask b) i (3 - 1) = Some true) /\
        (forall j, pad <= j -> j + 1 < 3 ->
           exists ts, cell (b_timesteps b) i j = Some ts /\
                      cell (b_timesteps b) i (j + 1) = Some (ts + 1)%Z).
Proof.
  split; [demo_selection|]. split; [demo_paths|].
  split; [reflexivity|]. split; [reflexivity|].
  apply (windows_right_aligned demo_trajectories demo_sorted_return_inds 2
           demo_state_mean demo_state_std 1000%Q 1 1 demo_np_rng demo_py_rng);
    [demo_selection|demo_paths|reflexivity|reflexivity].
Defined.

(** ** The evaluator: buffers, return target, accumulators *)

Lemma wrap32_in_range z : (- 2 ^ 31 <= z < 2 ^ 31)%Z -> wrap32 z = z.
Proof. intros Hz. unfold wrap32. rewrite Z.mod_small; lia. Qed.

Lemma drop_last_col_snoc {A} (t : list (list A)) (x : A) :
  drop_last_col (map (fun row => row ++ [x]) t) = t.
Proof.
  unfold drop_last_col. rewrite <- list_fmap_compose.
  rewrite <- (list_fmap_id t) at 2. apply list_fmap_ext. intros _ row _. simpl.
  unfold py_slice_stop, py_slice_start. rewrite length_app. simpl.
  replace (Z.to_nat (Z.max (Z.of_nat (length row + 1) + -1) 0)) with (length row) by lia.
  by rewrite take_app_length.
Qed.

Section EvalBuffers.
Context {R : Type} `{Scalar R}.
Variable Env : Type.
Variable make_env : nat -> Env.
Variable env_reset : Env -> Env * @TimeStep R.
Variable env_step : Env -> list R -> Env * @TimeStep R.
Variable get_batch_action :
  list (list (list R)) -> list (list (list R)) -> list (list R) ->
  list (list R) -> list R -> list (list R).
Variable mode : Mode.
Variables state_mean state_std : list R.
Variable scale : R.
Variable act_dim : nat.
Variable num_eval_episodes : nat.
Variable target_rew : R.

Hypothesis Harity : model_arity get_batch_action.

Abbreviation body := (loop_body Env env_step get_batch_action mode
                        state_mean state_std scale act_dim).
Abbreviation loop := (eval_loop Env env_step get_batch_action mode
                        state_mean state_std scale act_dim).
Abbreviation results st := (env_steps Env env_step get_batch_action
                              state_mean state_std act_dim st).
Abbreviation answers st := (model_actions Env get_batch_action
                              state_mean state_std act_dim st).

(** What an iteration does to the environments and to the four histories. *)
Lemma loop_body_buffers n t (st st' : @EvalState R Env) b :
  wf_eval n st -> body t st = Some (st', b) ->
  exists last_target,
    last_col (target_returns st) = Some last_target /\
    length last_target = n /\
    wrapped_envs st' = map fst (results st) /\
    ev_states st'
      = zip_with (fun row x => row ++ [x]) (ev_states st)
          (map (fun r => observation (snd r)) (results st)) /\
    ev_actions st'
      = zip_with (fun row x => row ++ [x]) (ev_actions st) (answers st) /\
    ev_rewards st'
      = zip_with (fun row x => row ++ [x]) (ev_rewards st)
          (map (fun r => reward (snd r)) (results st)) /\
    target_returns st'
      = zip_with (fun row x => row ++ [x]) (target_returns st)
          (match mode with
           | delayed => last_target
           | _ => zip_with (fun g r => sub g (div r scale)) last_target
                    (map (fun r => reward (snd r)) (results st))
           end).
Proof.
  intros Hwf Hbody. pose proof (length_results Env env_step get_batch_action
                                  state_mean state_std act_dim Harity n st Hwf) as Hres.
  destruct Hwf as (He & Hd & Hdrows & Hs & Ha & Hr & Hg & Hgrows & Her & Hel).
  assert (Hact : length (answers st) = n).
  { unfold model_actions. rewrite Harity. unfold normalized. by rewrite length_map. }
  unfold loop_body in Hbody.
  fold (answers st) in Hbody. fold (results st) in Hbody.
  set (new_actions := answers st) in *.
  set (ts_s := results st) in *.
  rewrite !drop_last_col_snoc in Hbody.
  rewrite (append_col_ok (ev_actions st) new_actions) in Hbody by lia.
  rewrite bind_Some_l in Hbody.
  rewrite last_col_flags in Hbody by done. rewrite bind_Some_l in Hbody.
  unfold tf_any2 in Hbody. rewrite decide_True in Hbody by (rewrite !length_map; lia).
  rewrite bind_Some_l in Hbody.
  set (new_dones := zip_with orb _ _) in Hbody.
  assert (Hnd : length new_dones = n).
  { unfold new_dones. rewrite length_zip_with, !length_map. lia. }
  rewrite (append_col_ok (drop_last_col (ev_dones st)) new_dones) in Hbody
    by (rewrite length_drop_last_col; lia).
  rewrite bind_Some_l in Hbody.
  rewrite (append_col_ok (ev_states st)) in Hbody by (rewrite length_map; lia).
  rewrite bind_Some_l in Hbody.
  rewrite (append_col_ok (ev_rewards st)) in Hbody by (rewrite !length_map; lia).
  rewrite bind_Some_l in Hbody.
  destruct (last_col_nonempty (target_returns st) Hgrows) as (last_target & Hlt & Hltl).
  rewrite Hlt, bind_Some_l in Hbody.
  exists last_target. split; [done|]. split; [lia|].
  assert (Hpred :
    (match mode with
     | delayed => Some last_target
     | _ => if decide (length last_target = length (map (fun ts => reward (snd ts)) ts_s))
            then Some (zip_with (fun g r => sub g (div r scale)) last_target
                         (map (fun ts => reward (snd ts)) ts_s))
            else None
     end) = Some (match mode with
                  | delayed => last_target
                  | _ => zip_with (fun g r => sub g (div r scale)) last_target
                           (map (fun r => reward (snd r)) ts_s)
                  end)).
  { destruct mode; try done; by rewrite decide_True by (rewrite length_map; lia). }
  rewrite Hpred, bind_Some_l in Hbody.
  rewrite (append_col_ok (target_returns st)) in Hbody
    by (destruct mode; rewrite ?length_zip_with, ?length_map; lia).
  rewrite bind_Some_l in Hbody.
  unfold tf_add_where in Hbody.
  rewrite !decide_True in Hbody by (rewrite ?length_map, ?length_replicate; lia).
  rewrite !bind_Some_l in Hbody.
  injection Hbody as <- _. simpl.
  split; [|by repeat split].
  rewrite drop_ge by lia. by rewrite app_nil_r.
Qed.

Abbreviation run max_ep_len :=
  (eval_run Env make_env env_reset env_step get_batch_action mode
     state_mean state_std scale act_dim num_eval_episodes max_ep_len target_rew).

(** The initial return target of every episode. *)
Abbreviation target0 := (div (mul one target_rew) scale).

Lemma eval_init_buffers (st0 : @EvalState R Env) :
  eval_init Env make_env env_reset mode scale num_eval_episodes target_rew = Some st0 ->
  Forall (fun row => length row = 1) (ev_states st0) /\
  ev_actions st0 = replicate num_eval_episodes [] /\
  ev_rewards st0 = replicate num_eval_episodes [] /\
  target_returns st0 = replicate num_eval_episodes [target0].
Proof.
  unfold eval_init. intros Hinit.
  apply bind_Some in Hinit as (obs0 & _ & Hinit).
  apply bind_Some in Hinit as (obs & _ & Hinit).
  apply bind_Some in Hinit as (states & Hstates & Hinit).
  injection Hinit as <-. simpl. split; [|done].
  unfold append_col in Hstates. destruct (decide _); [|done].
  injection Hstates as <-. apply Forall_lookup. intros i row Hi.
  apply lookup_zip_with_Some in Hi as (r0 & x & -> & Hr0 & _).
  apply lookup_replicate in Hr0 as [-> _]. done.
Qed.

(** A run, as its initial state and the chain of iterations that follow. *)
Lemma eval_run_steps max_ep_len :
  mode <> noise -> 0 < num_eval_episodes ->
  exists st0 trace,
    run max_ep_len = Some (st0, trace) /\
    eval_init Env make_env env_reset mode scale num_eval_episodes target_rew
      = Some st0 /\
    wf_eval num_eval_episodes st0 /\
    length trace <= max_ep_len /\
    (forall p s', trace !! p = Some s' ->
       exists s, (st0 :: trace) !! p = Some s /\
         wf_eval num_eval_episodes s /\ wf_eval num_eval_episodes s' /\
         body (0 + Z.of_nat p) s = Some (s', forallb id (done_flags s'))).
Proof.
  intros Hmode Hpos.
  destruct (eval_init_spec Env make_env env_reset mode scale num_eval_episodes
              target_rew Hmode Hpos) as (st0 & Hinit & Hwf & _).
  destruct (eval_loop_steps Env env_step get_batch_action mode state_mean state_std
              scale act_dim Harity num_eval_episodes max_ep_len 0 st0 Hwf)
    as (trace & Hloop & Hlen & Hsteps & _).
  exists st0, trace. unfold eval_run. rewrite Hinit, bind_Some_l, Hloop, bind_Some_l.
  split; [done|]. split; [done|]. split; [done|]. by split.
Qed.

Lemma Forall_snoc_lengths {A} (t : list (list A)) (col : list A) m :
  Forall (fun row => length row = m) t ->
  Forall (fun row => length row = m + 1) (zip_with (fun row x => row ++ [x]) t col).
Proof.
  intros Ht. apply Forall_lookup. intros i row Hi.
  apply lookup_zip_with_Some in Hi as (r0 & x & -> & Hr0 & _).
  eapply Forall_lookup_1 in Ht; [|exact Hr0]. rewrite length_app. simpl. lia.
Qed.

(** X11. The histories stay aligned.  In a run with at least one episode,
    which makes at least one iteration when [max_ep_len > 0], after [p]
    iterations every episode has [p + 1] observations, [p] actions, [p]
    rewards and [p + 1] return targets, and the timestep sequence has [p + 1] entries; so the five
    histories the model is given in an iteration (the actions and rewards
    with their placeholder) all span the same [p + 1] steps, one row per
    episode. *)
Theorem histories_stay_aligned max_ep_len :
  mode <> noise -> 0 < num_eval_episodes ->
  exists st0 trace,
    run max_ep_len = Some (st0, trace) /\
    (0 < max_ep_len -> 0 < length trace) /\
    forall p s, (st0 :: trace) !! p = Some s ->
      shape2 (ev_states s) num_eval_episodes (p + 1) /\
      shape2 (ev_actions s) num_eval_episodes p /\
      shape2 (ev_rewards s) num_eval_episodes p /\
      shape2 (target_returns s) num_eval_episodes (p + 1) /\
      length (ev_timesteps s) = p + 1 /\
      shape2 (normalized state_mean state_std (ev_states s)) num_eval_episodes (p + 1) /\
      shape2 (map (fun row => row ++ [replicate act_dim zero]) (ev_actions s))
        num_eval_episodes (p + 1) /\
      shape2 (map (fun row => row ++ [zero]) (ev_rewards s)) num_eval_episodes (p + 1).
Proof.
  intros Hmode Hpos.
  destruct (eval_run_steps max_ep_len Hmode Hpos)
    as (st0 & trace & Hrun & Hinit & Hwf0 & _ & Hsteps).
  exists st0, trace. split; [done|].
  split; [intros Hmax; eapply eval_run_nonempty; [exact Hrun|exact Hmax]|].
  assert (Hcore : forall p s, (st0 :: trace) !! p = Some s ->
    wf_eval num_eval_episodes s /\
    Forall (fun row => length row = p + 1) (ev_states s) /\
    Forall (fun row => length row = p) (ev_actions s) /\
    Forall (fun row => length row = p) (ev_rewards s) /\
    Forall (fun row => length row = p + 1) (target_returns s)).
  { induction p as [|p IH]; intros s Hs.
    - simpl in Hs. injection Hs as <-.
      destruct (eval_init_buffers st0 Hinit) as (Hst & -> & -> & ->).
      split; [done|]. split; [done|]. repeat split; by apply Forall_replicate.
    - simpl in Hs. destruct (Hsteps p s Hs) as (s0 & Hs0 & Hw0 & Hw & Hb).
      destruct (IH s0 Hs0) as (_ & Hst & Hac & Hre & Htg).
      destruct (loop_body_buffers _ _ _ _ _ Hw0 Hb)
        as (lt & _ & _ & _ & -> & -> & -> & ->).
      split; [done|].
      replace (S p + 1) with ((p + 1) + 1) by lia.
      replace (S p) with (p + 1) by lia.
      repeat split; by apply Forall_snoc_lengths. }
  intros p s Hs. destruct (Hcore p s Hs) as (Hw & Hst & Hac & Hre & Htg).
  destruct Hw as (_ & _ & _ & Hsl & Hal & Hrl & Hgl & _).
  assert (Hts : length (ev_timesteps s) = p + 1).
  { rewrite (trace_timesteps Env env_step get_batch_action mode state_mean state_std
               scale act_dim Harity num_eval_episodes st0 trace 0 Hsteps p s Hs).
    destruct (eval_init_spec Env make_env env_reset mode scale num_eval_episodes
                target_rew Hmode Hpos) as (st0' & Hinit' & _ & Hts0 & _).
    assert (st0' = st0) as -> by congruence.
    rewrite Hts0, length_app, length_map, length_seq. simpl. lia. }
  unfold shape2, normalized. rewrite !length_map.
  repeat split; try done.
  - apply Forall_fmap. eapply Forall_impl; [exact Hst|].
    intros row Hrow. simpl in *. by rewrite length_map.
  - apply Forall_fmap. eapply Forall_impl; [exact Hac|].
    intros row Hrow. simpl in *. rewrite length_app. simpl. lia.
  - apply Forall_fmap. eapply Forall_impl; [exact Hre|].
    intros row Hrow. simpl in *. rewrite length_app. simpl. lia.
Qed.

Lemma last_col_lookup {A} (t : list (list A)) col k row :
  last_col t = Some col -> t !! k = Some row ->
  exists x, last row = Some x /\ col !! k = Some x.
Proof.
  unfold last_col. intros Hcol Hrow. apply mapM_Some in Hcol.
  destruct (Forall2_lookup_l _ _ _ _ _ Hcol Hrow) as (x & Hx & Hidx).
  exists x. split; [|done].
  destruct row as [|a row] using rev_ind; [done|].
  rewrite py_index_last in Hidx by (by destruct row).
  rewrite last_snoc. rewrite length_app in Hidx. simpl in Hidx.
  rewrite list_lookup_middle in Hidx by lia. done.
Qed.

(** X12. The return target, in a run with at least one episode (which
    makes at least one iteration when [max_ep_len > 0]).  Every episode
    starts at [target_rew / scale];
    each iteration appends, for every episode whether done or not, the
    last target minus [reward / scale], or in delayed mode the last target
    itself, so that in delayed mode the target stays at its initial value
    throughout. *)
Theorem return_target_update max_ep_len :
  mode <> noise -> 0 < num_eval_episodes ->
  exists st0 trace,
    run max_ep_len = Some (st0, trace) /\
    (0 < max_ep_len -> 0 < length trace) /\
    target_returns st0 = replicate num_eval_episodes [target0] /\
    (forall p s s' k row,
       (st0 :: trace) !! p = Some s -> trace !! p = Some s' ->
       target_returns s !! k = Some row ->
       exists g e ts,
         last row = Some g /\
         env_steps Env env_step get_batch_action state_mean state_std act_dim s !! k
         = Some (e, ts) /\
         target_returns s' !! k
         = Some (row ++ [match mode with
                         | delayed => g
                         | _ => sub g (div (reward ts) scale)
                         end])) /\
    (mode = delayed ->
     forall p s k, (st0 :: trace) !! p = Some s -> k < num_eval_episodes ->
       target_returns s !! k = Some (replicate (p + 1) target0)).
Proof.
  intros Hmode Hpos.
  destruct (eval_run_steps max_ep_len Hmode Hpos)
    as (st0 & trace & Hrun & Hinit & Hwf0 & _ & Hsteps).
  exists st0, trace. split; [done|].
  split; [intros Hmax; eapply eval_run_nonempty; [exact Hrun|exact Hmax]|].
  destruct (eval_init_buffers st0 Hinit) as (_ & _ & _ & Htg0).
  split; [done|].
  assert (Hstep : forall p s s' k row,
       (st0 :: trace) !! p = Some s -> trace !! p = Some s' ->
       target_returns s !! k = Some row ->
       exists g e ts,
         last row = Some g /\ results s !! k = Some (e, ts) /\
         target_returns s' !! k
         = Some (row ++ [match mode with
                         | delayed => g
                         | _ => sub g (div (reward ts) scale)
                         end])).
  { intros p s s' k row Hs Hs' Hrow.
    destruct (Hsteps p s' Hs') as (s0 & Hs0 & Hw & _ & Hb).
    assert (s0 = s) as -> by congruence.
    destruct (loop_body_buffers _ _ _ _ _ Hw Hb)
      as (lt & Hlt & Hltl & _ & _ & _ & _ & Htg).
    destruct (last_col_lookup _ _ _ _ Hlt Hrow) as (g & Hg & Hltk).
    pose proof (length_results Env env_step get_batch_action state_mean state_std
                  act_dim Harity _ s Hw) as Hres.
    destruct (lookup_lt_is_Some_2 (results s) k) as [[e ts] Hr].
    { rewrite Hres, <- Hltl. by eapply lookup_lt_Some. }
    exists g, e, ts. split; [done|]. split; [done|].
    rewrite Htg. apply lookup_zip_with_Some.
    eexists row, _. split; [reflexivity|]. split; [done|].
    destruct mode; try done;
      (apply lookup_zip_with_Some; exists g, (reward ts);
       split; [done|]; split; [done|]; by rewrite list_lookup_fmap, Hr). }
  split; [exact Hstep|].
  intros Hd p. induction p as [|p IH]; intros s k Hs Hk.
  - simpl in Hs. injection Hs as <-. rewrite Htg0. by apply lookup_replicate_2.
  - simpl in Hs. destruct (Hsteps p s Hs) as (s0 & Hs0 & _ & _ & _).
    pose proof (IH s0 k Hs0 Hk) as Hrow.
    destruct (Hstep p s0 s k _ Hs0 Hs Hrow) as (g & e & ts & Hg & _ & Hnew).
    rewrite Hnew, Hd. f_equal.
    rewrite last_lookup, length_replicate, lookup_replicate_2 in Hg by lia.
    injection Hg as <-.
    replace (S p + 1) with (S (p + 1)) by lia. by rewrite replicate_S_end.
Qed.

(** X13. What a run with at least one episode (which makes at least one
    iteration when [max_ep_len > 0]) reports for an episode, at any point
    of the run: its
    length [m] is the number of steps taken before the step on which it
    ends (all the steps so far if it has not ended), its return is the sum,
    from the left, of the rewards of those [m] steps, and its done flag has
    been false up to iteration [m] and true ever since (for runs shorter
    than 2^31 iterations, the range of the length counter). *)
Theorem reported_length_and_return max_ep_len :
  mode <> noise -> 0 < num_eval_episodes -> (Z.of_nat max_ep_len < 2 ^ 31)%Z ->
  exists st0 trace,
    run max_ep_len = Some (st0, trace) /\
    (0 < max_ep_len -> 0 < length trace) /\
    forall p s k, (st0 :: trace) !! p = Some s -> k < num_eval_episodes ->
      exists m row,
        m <= p /\
        ev_rewards s !! k = Some row /\ length row = p /\
        episode_length s !! k = Some (Z.of_nat m) /\
        episode_return s !! k = Some (foldl add zero (take m row)) /\
        (forall q sq, q <= p -> (st0 :: trace) !! q = Some sq ->
           done_flags sq !! k = Some (bool_decide (m < q))).
Proof.
  intros Hmode Hpos H31.
  destruct (eval_run_steps max_ep_len Hmode Hpos)
    as (st0 & trace & Hrun & Hinit & Hwf0 & Hlen & Hsteps).
  exists st0, trace. split; [done|].
  split; [intros Hmax; eapply eval_run_nonempty; [exact Hrun|exact Hmax]|].
  destruct (eval_init_spec Env make_env env_reset mode scale num_eval_episodes
              target_rew Hmode Hpos) as (st0' & Hinit' & _ & _ & Hf0 & Hr0 & Hl0).
  assert (st0' = st0) as -> by congruence. clear Hinit'.
  destruct (eval_init_buffers st0 Hinit) as (_ & _ & Hrew0 & _).
  intros p. induction p as [|p IH]; intros s k Hs Hk.
  - simpl in Hs. injection Hs as <-. exists 0, [].
    split; [done|]. split; [rewrite Hrew0; by apply lookup_replicate_2|].
    split; [done|]. split; [rewrite Hl0; by apply lookup_replicate_2|].
    split; [rewrite Hr0; by apply lookup_replicate_2|].
    intros q sq Hq Hsq. assert (q = 0) as -> by lia. simpl in Hsq.
    injection Hsq as <-. rewrite Hf0. by apply lookup_replicate_2.
  - simpl in Hs. destruct (Hsteps p s Hs) as (s0 & Hs0 & Hw & _ & Hb).
    destruct (IH s0 k Hs0 Hk) as (m & row & Hm & Hrow & Hrl & Hel & Her & Hhist).
    assert (Hp : p < max_ep_len).
    { apply lookup_lt_Some in Hs. lia. }
    pose proof (length_results Env env_step get_batch_action state_mean state_std
                  act_dim Harity _ s0 Hw) as Hres.
    destruct (lookup_lt_is_Some_2 (results s0) k) as [[e ts] Hr]; [lia|].
    destruct (loop_body_accumulates Env env_step get_batch_action mode state_mean
                state_std scale act_dim Harity _ _ _ _ _ k e ts _ _ Hw Hb Hr Her Hel)
      as (d & d' & Hd & Hd' & Hdd & Her' & Hel').
    destruct (loop_body_buffers _ _ _ _ _ Hw Hb)
      as (lt & _ & _ & _ & _ & _ & Hrew & _).
    assert (Hrow' : ev_rewards s !! k = Some (row ++ [reward ts])).
    { rewrite Hrew. apply lookup_zip_with_Some. exists row, (reward ts).
      split; [done|]. split; [done|]. by rewrite list_lookup_fmap, Hr. }
    pose proof (Hhist p s0 (Nat.le_refl p) Hs0) as Hdp. rewrite Hd in Hdp.
    injection Hdp as Hdp.
    destruct d' eqn:Ed'.
    + (* done after this step: nothing is accumulated *)
      exists m, (row ++ [reward ts]).
      split; [lia|]. split; [done|]. split; [rewrite length_app; simpl; lia|].
      split.
      { rewrite Hel'. f_equal. unfold int32_add.
        rewrite wrap32_in_range by lia. lia. }
      split; [by rewrite Her', take_app_le by lia|].
      intros q sq Hq Hsq. destruct (decide (q = S p)) as [->|Hne].
      * simpl in Hsq. assert (sq = s) as -> by congruence.
        rewrite Hd'. f_equal. symmetry. apply bool_decide_eq_true_2. lia.
      * apply Hhist; [lia|done].
    + (* still running after this step: the step is accumulated *)
      assert (d = false) as -> by (by destruct d).
      assert (m = p) as ->.
      { symmetry in Hdp. apply bool_decide_eq_false_1 in Hdp. lia. }
      exists (S p), (row ++ [reward ts]).
      split; [lia|]. split; [done|]. split; [rewrite length_app; simpl; lia|].
      split.
      { rewrite Hel'. f_equal. unfold int32_add.
        rewrite wrap32_in_range by lia. lia. }
      split.
      { rewrite Her'. f_equal. rewrite take_ge by lia.
        rewrite take_ge by (rewrite length_app; simpl; lia).
        by rewrite foldl_app. }
      intros q sq Hq Hsq. destruct (decide (q = S p)) as [->|Hne].
      * simpl in Hsq. assert (sq = s) as -> by congruence.
        rewrite Hd'. f_equal. symmetry. apply bool_decide_eq_false_2. lia.
      * rewrite (Hhist q sq) by (lia || done). f_equal.
        rewrite !bool_decide_eq_false_2 by lia. done.
Qed.

End EvalBuffers.

Lemma histories_stay_aligned_witness :
  model_arity zero_model /\ normal <> noise /\ 0 < 2 /\
  exists st0 trace,
    demo_eval_two = Some (st0, trace) /\
    (0 < 5 -> 0 < length trace) /\
    forall p s, (st0 :: trace) !! p = Some s ->
      shape2 (ev_states s) 2 (p + 1) /\
      shape2 (ev_actions s) 2 p /\
      shape2 (ev_rewards s) 2 p /\
      shape2 (target_returns s) 2 (p + 1) /\
      length (ev_timesteps s) = p + 1 /\
      shape2 (normalized [0%Q] [1%Q] (ev_states s)) 2 (p + 1) /\
      shape2 (map (fun row => row ++ [replicate 1 zero]) (ev_actions s)) 2 (p + 1) /\
      shape2 (map (fun row => row ++ [zero]) (ev_rewards s)) 2 (p + 1).
Proof.
  split; [intros ? ? ? ? ?; apply length_map|]. split; [discriminate|].
  split; [lia|].
  apply (histories_stay_aligned CounterEnv demo_envs_two counter_reset
           counter_step zero_model normal [0%Q] [1%Q] 1%Q 1 2 3%Q).
  - intros ? ? ? ? ?; apply length_map.
  - discriminate.
  - lia.
Defined.

Lemma return_target_update_witness :
  model_arity zero_model /\ delayed <> noise /\ 0 < 2 /\
  exists st0 trace,
    eval_run CounterEnv demo_envs_two counter_reset counter_step zero_model
      delayed [0%Q] [1%Q] 1%Q 1 2 5 3%Q = Some (st0, trace) /\
    (0 < 5 -> 0 < length trace) /\
    target_returns st0 = replicate 2 [div (mul one 3%Q) 1%Q] /\
    (forall p s s' k row,
       (st0 :: trace) !! p = Some s -> trace !! p = Some s' ->
       target_returns s !! k = Some row ->
       exists g e ts,
         last row = Some g /\
         env_steps CounterEnv counter_step zero_model [0%Q] [1%Q] 1 s !! k
         = Some (e, ts) /\
         target_returns s' !! k = Some (row ++ [g])) /\
    (delayed = delayed ->
     forall p s k, (st0 :: trace) !! p = Some s -> k < 2 ->
       target_returns s !! k = Some (replicate (p + 1) (div (mul one 3%Q) 1%Q))).
Proof.
  split; [intros ? ? ? ? ?; apply length_map|]. split; [discriminate|].
  split; [lia|].
  apply (return_target_update CounterEnv demo_envs_two counter_reset
           counter_step zero_model delayed [0%Q] [1%Q] 1%Q 1 2 3%Q).
  - intros ? ? ? ? ?; apply length_map.
  - discriminate.
  - lia.
Defined.

Lemma reported_length_and_return_witness :
  model_arity zero_model /\ normal <> noise /\ 0 < 2 /\
  (Z.of_nat 5 < 2 ^ 31)%Z /\
  exists st0 trace,
    demo_eval_two = Some (st0, trace) /\
    (0 < 5 -> 0 < length trace) /\
    forall p s k, (st0 :: trace) !! p = Some s -> k < 2 ->
      exists m row,
        m <= p /\
        ev_rewards s !! k = Some row /\ length row = p /\
        episode_length s !! k = Some (Z.of_nat m) /\
        episode_return s !! k = Some (foldl add zero (take m row)) /\
        (forall q sq, q <= p -> (st0 :: trace) !! q = Some sq ->
           done_flags sq !! k = Some (bool_decide (m < q))).
Proof.
  split; [intros ? ? ? ? ?; apply length_map|]. split; [discriminate|].
  split; [lia|]. split; [simpl; lia|].
  apply (reported_length_and_return CounterEnv demo_envs_two counter_reset
           counter_step zero_model normal [0%Q] [1%Q] 1%Q 1 2 3%Q).
  - intros ? ? ? ? ?; apply length_map.
  - discriminate.
  - lia.
  - simpl; lia.
Defined.

(** ** The sampling weights *)

Lemma mapM_lookup_lens (traj_lens sel lens : list nat) :
  mapM (fun i => traj_lens !! i) sel = Some lens ->
  sum_list lens = selected_timesteps traj_lens sel.
Proof.
  intros Hm. apply mapM_Some in Hm. unfold selected_timesteps.
  induction Hm as [|i l sel lens Hi _ IH]; [done|]. simpl. by rewrite Hi, IH.
Qed.

(** X14. After a selection has returned, [p_sample] is computed without
    error and has one weight per selected trajectory, in the order of the
    selection: the number of steps of that trajectory divided by the
    [timesteps] the selection loop counted. *)
Theorem sampling_weights_follow_selection :
  forall (R : Type) (HR : Scalar R) (pct_traj : R) (trajectories : list (@Path R))
         (sel : list nat) (timesteps : Z),
    select_trajectories pct_traj trajectories = Some (sel, timesteps) ->
    exists ps : list R,
      p_sample_of (traj_lens_of trajectories) sel = Some ps /\
      length ps = length sel /\
      forall k i, sel !! k = Some i ->
        exists traj, trajectories !! i = Some traj /\
          ps !! k = Some (div (of_Z (Z.of_nat (length (observations traj))))
                              (of_Z timesteps)).
Proof.
  intros R HR pct trajs sel ts Hsel.
  destruct (select_trajectories_wf pct trajs sel ts Hsel) as (Hpos & _ & Hin).
  assert (Hne : trajs <> []).
  { intros ->. destruct sel as [|i sel]; [simpl in Hpos; lia|].
    apply Forall_cons in Hin as [Hi _]. simpl in Hi. lia. }
  destruct (select_trajectories_cut pct trajs Hne) as (k' & _ & Hcut & _).
  rewrite Hsel in Hcut. injection Hcut as Hsel' Hts.
  rewrite <- Hsel' in Hts. clear Hsel'.
  unfold p_sample_of.
  destruct (mapM_lookup_spec (fun i => traj_lens_of trajs !! i) sel
              (fun _ i l => exists traj, trajs !! i = Some traj /\
                                         l = length (observations traj)))
    as (lens & Hlens & Hll & Hrows).
  { intros k i Hk. eapply Forall_lookup_1 in Hin; [|exact Hk].
    destruct (lookup_lt_is_Some_2 trajs i Hin) as [traj Htraj].
    exists (length (observations traj)). split; [|by exists traj].
    unfold traj_lens_of. by rewrite list_lookup_fmap, Htraj. }
  rewrite Hlens, bind_Some_l.
  rewrite (mapM_lookup_lens _ _ _ Hlens), <- Hts.
  eexists. split; [done|]. split; [by rewrite length_map|].
  intros k i Hk.
  destruct (lookup_lt_is_Some_2 lens k) as [l Hl].
  { rewrite Hll. by eapply lookup_lt_Some. }
  destruct (Hrows k i l Hk Hl) as (traj & Htraj & ->).
  exists traj. split; [done|]. by rewrite list_lookup_fmap, Hl.
Qed.

Lemma sampling_weights_follow_selection_witness :
  select_trajectories 1%Q demo_trajectories = Some ([1; 0], 10%Z) /\
  exists ps : list Q,
    p_sample_of (traj_lens_of demo_trajectories) [1; 0] = Some ps /\
    length ps = 2 /\
    forall k i : nat, [1; 0] !! k = Some i ->
      exists traj, demo_trajectories !! i = Some traj /\
        ps !! k = Some (div (of_Z (Z.of_nat (length (observations traj))))
                            (of_Z 10%Z)).
Proof.
  split; [reflexivity|].
  apply (sampling_weights_follow_selection Q Q_Scalar 1%Q demo_trajectories
           [1; 0] 10%Z).
  reflexivity.
Defined.

(** ** The learning-rate schedule, in exact arithmetic

    The statement below is about the value of the rate and is made over
    the rationals. *)

Lemma Q_ratio_le_1 (a b : Z) :
  (0 < b)%Z -> (inject_Z a / inject_Z b <= 1 <-> (a <= b)%Z)%Q.
Proof.
  intros Hb. destruct b as [|pb|pb]; try lia.
  unfold Qle, Qdiv, Qmult, Qinv, inject_Z. simpl. lia.
Qed.

Lemma wrap64_small (z : Z) :
  (- 2 ^ 63 <= z < 2 ^ 63)%Z -> wrap64 z = z.
Proof.
  intros Hz. unfold wrap64. rewrite Z.mod_small by lia. lia.
Qed.

(** X15. The warm-up schedule ramps linearly and then holds: with a
    positive number of warm-up steps, the rate at a step whose successor
    is below that number is (step + 1) / warmup_steps times the target
    rate, and from there on it is the target rate itself; for a
    non-negative target the rate always lies between 0 and the target. *)
Theorem warmup_ramps_then_holds :
  forall (self : WarmupLR (R := Q)) (step : Z),
    (0 < warmup_steps self)%Z ->
    (0 <= step < 2 ^ 63 - 1)%Z ->
    ((step + 1 < warmup_steps self)%Z ->
       WarmupLR_call self step
       = (inject_Z (step + 1) / inject_Z (warmup_steps self)
          * target_learning_rate self)%Q) /\
    ((warmup_steps self <= step + 1)%Z ->
       (WarmupLR_call self step == target_learning_rate self)%Q) /\
    ((0 <= target_learning_rate self)%Q ->
       (0 <= WarmupLR_call self step)%Q /\
       (WarmupLR_call self step <= target_learning_rate self)%Q).
Proof.
  intros [target warmup] step; simpl. intros Hw Hs.
  unfold WarmupLR_call, tf_minimum; simpl.
  rewrite wrap64_small by lia.
  pose proof (Q_ratio_le_1 (step + 1) warmup Hw) as Hle.
  destruct (Qle_bool (inject_Z (step + 1) / inject_Z warmup) 1) eqn:Hb.
  - apply Qle_bool_iff in Hb. pose proof (proj1 Hle Hb) as Hsw.
    split; [done|]. split.
    + intros Hge. assert (warmup = step + 1)%Z as -> by lia.
      field. unfold Qeq; simpl. lia.
    + intros Ht. split.
      * apply Qmult_le_0_compat; [|done].
        apply Qle_shift_div_l; unfold Qlt, Qle; simpl; lia.
      * rewrite <- (Qmult_1_l target) at 2.
        apply Qmult_le_compat_r; done.
  - assert (Hnle : ~ (inject_Z (step + 1) / inject_Z warmup <= 1)%Q).
    { intros H. apply Qle_bool_iff in H. congruence. }
    assert (Hsw : (warmup < step + 1)%Z).
    { destruct (Z_lt_le_dec warmup (step + 1)); [done|].
      exfalso. apply Hnle, Hle. lia. }
    pose proof (mul_1_l (R := Q) target) as H1. simpl in H1.
    split; [lia|]. split.
    + intros _. by rewrite H1.
    + intros Ht. rewrite H1. split; [done|apply Qle_refl].
Qed.

Lemma warmup_ramps_then_holds_witness :
  let self := {| target_learning_rate := (1 # 10000)%Q; warmup_steps := 10 |} in
  (WarmupLR_call self 3 = (inject_Z 4 / inject_Z 10 * (1 # 10000))%Q) /\
  (WarmupLR_call self 9 == 1 # 10000)%Q /\
  (WarmupLR_call self 12 == 1 # 10000)%Q.
Proof.
  intros self.
  assert (Hw : (0 < warmup_steps self)%Z) by (simpl; lia).
  split; [|split].
  - apply (warmup_ramps_then_holds self 3 Hw); simpl; lia.
  - apply (warmup_ramps_then_holds self 9 Hw); simpl; lia.
  - apply (warmup_ramps_then_holds self 12 Hw); simpl; lia.
Defined.
